(** * maloja: Nebula overlay-network topology, address allocation,
      certificate artifact sets and configuration composition

    A shallow embedding of the Python package (base.py, config.py,
    entities.py, io.py) and the properties of its address allocator, of the
    certificate signing helpers and of the configuration composer.

    Conventions of the embedding:
    - an IPv4 address is its 32-bit integer value, an [N]; IPv6 is left
      out: with a prefix length of at most 32, as [CIDRLiteral] has it, the
      hosts of an IPv6 block cannot be enumerated into a set;
    - a node list holds one record per node object (a node is not listed
      twice);
    - Python sets are [gset], dicts are [gmap] (or an association list where
      iteration order is what the code relies on);
    - a raised exception is the [Raise] branch of [Result]; code that acts on
      the filesystem and on the container runtime threads a [World]. *)

From Stdlib Require Import Ascii String.
From stdpp Require Import base gmap sets list strings sorting pretty.

Set Warnings "-register-all,-clear-no-such-hyp".

(** ** Python exceptions and results *)

Inductive PyExc : Type :=
  | IndexError                     (* list index out of range *)
  | ValueError (msg : string)
  | TypeError                      (* e.g. 'str' object is not callable *)
  | UnboundLocalError
  | AssertionError
  | ValidationError                (* raised by pydantic validation *)
  | ContainerError (detail : string). (* raised by the container runtime *)

Inductive Result (A : Type) : Type :=
  | Ok (a : A)
  | Raise (e : PyExc).
Arguments Ok {A} a.
Arguments Raise {A} e.

Definition bindR {A B} (r : Result A) (k : A → Result B) : Result B :=
  match r with
  | Ok a => k a
  | Raise e => Raise e
  end.

(** ** ipaddress: the part of the standard library the allocator calls *)

Module ipaddress.

(** [str(IPv4Address)]: dotted quad. *)
Definition octet (a : N) (k : N) : N := ((a `div` 2 ^ (8 * k)) `mod` 256)%N.

Definition str (a : N) : string :=
  pretty (octet a 3) +:+ "." +:+ pretty (octet a 2) +:+ "." +:+
  pretty (octet a 1) +:+ "." +:+ pretty (octet a 0).

(** An [IPv4Network]: network address and prefix length. *)
Record IPv4Network : Type := { network_address : N; prefixlen : N }.

Definition hostmask (p : N) : N := (2 ^ (32 - p) - 1)%N.

(** [IPv4Network(f"{ip}/{cidr}")], strict: a prefix above 32 or an address
    with host bits set is a ValueError, which pydantic's [IPvAnyNetwork]
    turns into its own error. *)
Definition ip_network (a : N) (p : N) : Result IPv4Network :=
  if decide ((p ≤ 32)%N ∧ N.land a (hostmask p) = 0%N)
  then Ok {| network_address := a; prefixlen := p |}
  else Raise ValidationError.

(** [IPv4Network.hosts()]: every address of the block but the network and
    the broadcast address; both addresses of a /31; the address of a /32. *)
Definition hosts (net : IPv4Network) : list N :=
  let a := network_address net in
  if decide (prefixlen net = 32%N) then [a]
  else if decide (prefixlen net = 31%N) then [a; (a + 1)%N]
  else (λ k : nat, (a + 1 + N.of_nat k)%N) <$>
         seq 0 (N.to_nat (2 ^ (32 - prefixlen net) - 2)).

End ipaddress.

(** ** base.py: serialization that skips None fields *)

(** The values a model field holds when it is dumped. *)
Inductive PyVal : Type :=
  | VNone
  | VBool (b : bool)
  | VInt (z : Z)
  | VStr (s : string)
  | VList (l : list PyVal)
  | VDict (d : list (string * PyVal)).

Definition is_None (v : PyVal) : bool :=
  match v with
  | VNone => true
  | _ => false
  end.

(** What [_do_skip_none] sees of a model: iterating it yields the pairs
    (field name, value) in declaration order, and [_skip] lists the fields
    that may be left out. *)
Record Model : Type := { fields : list (string * PyVal); _skip : list string }.

(** [_do_skip_none]:
    [for f in datacls:
         if (f[1] is not None) or (f[0] not in datacls._skip):
             out_dict[f[0]] = f[1]] *)
Definition _do_skip_none (datacls : Model) : gmap string PyVal :=
  foldl (λ out_dict f,
           if negb (is_None f.2) || negb (bool_decide (f.1 ∈ _skip datacls))
           then <[f.1 := f.2]> out_dict
           else out_dict)
        ∅ (fields datacls).

(** [SkipNoneField.model_skip_none] *)
Definition model_skip_none (self : Model) : gmap string PyVal := _do_skip_none self.

(** ** config.py: the sections the composer fills in *)

Record RoutableIPPort : Type := { rip : N; rport : N }.

(** [RoutableIPPort.__str__] *)
Definition RoutableIPPort_str (r : RoutableIPPort) : string :=
  ipaddress.str (rip r) +:+ ":" +:+ pretty (rport r).

Record Pki : Type := {
  ca : string;
  cert : string;
  key : string;
  blocklist : option (list string);
  disconnect_invalid : option bool
}.

Definition Pki_skip : list string := ["blocklist"; "disconnect_invalid"].

(** [Pki(ca=..., cert=..., key=...)] with the declared defaults. *)
Definition Pki_new (ca cert key : string) : Pki :=
  {| ca := ca; cert := cert; key := key;
     blocklist := None; disconnect_invalid := Some true |}.

Definition opt_val {A} (f : A → PyVal) (o : option A) : PyVal :=
  match o with
  | Some a => f a
  | None => VNone
  end.

(** A [Pki] as [_do_skip_none] iterates it. *)
Definition Pki_model (p : Pki) : Model :=
  {| fields := [("ca", VStr (ca p)); ("cert", VStr (cert p));
                ("key", VStr (key p));
                ("blocklist", opt_val (λ l, VList (VStr <$> l)) (blocklist p));
                ("disconnect_invalid", opt_val VBool (disconnect_invalid p))];
     _skip := Pki_skip |}.

(** [Lighthouse]: the flags; the optional subsections default to None. *)
Record Lighthouse : Type := {
  lh_am_lighthouse : bool;
  serve_dns : bool;
  advertise_addrs : option (list RoutableIPPort)
}.

Definition Lighthouse_skip : list string :=
  ["dns"; "remote_allow_list"; "remote_allow_ranges"; "local_allow_list";
   "advertise_addrs"; "calculated_remotes"].

Definition Lighthouse_new (am : bool) : Lighthouse :=
  {| lh_am_lighthouse := am; serve_dns := false; advertise_addrs := None |}.

Definition Lighthouse_model (l : Lighthouse) : Model :=
  {| fields := [("am_lighthouse", VBool (lh_am_lighthouse l));
                ("serve_dns", VBool (serve_dns l));
                ("dns", VNone); ("remote_allow_list", VNone);
                ("remote_allow_ranges", VNone); ("local_allow_list", VNone);
                ("advertise_addrs",
                 opt_val (λ l, VList ((λ r, VStr (RoutableIPPort_str r)) <$> l))
                         (advertise_addrs l));
                ("calculated_remotes", VNone)];
     _skip := Lighthouse_skip |}.

(** [InOutboundItem]: None in [io_port] and [io_host] stands for "any". *)
Record InOutboundItem : Type := {
  io_port : option N;
  io_proto : string;
  io_host : option N;
  io_groups : option (list string);
  io_group : option string
}.

Definition InOutboundItem_skip : list string :=
  ["groups"; "group"; "groups"; "local_cidr"].

(** [InOutboundItem(group=group)] *)
Definition InOutboundItem_of_group (g : string) : InOutboundItem :=
  {| io_port := None; io_proto := "any"; io_host := None;
     io_groups := None; io_group := Some g |}.

Record Firewall : Type := {
  outbound_action : string;
  inbound_action : string;
  default_local_cidr_any : bool;
  outbound : list InOutboundItem;
  inbound : list InOutboundItem
}.

(** [Firewall(outbound=..., inbound=...)] *)
Definition Firewall_new (o i : list InOutboundItem) : Firewall :=
  {| outbound_action := "drop"; inbound_action := "drop";
     default_local_cidr_any := false; outbound := o; inbound := i |}.

(** [StaticHostMap]: [contents: dict[IPvAnyAddress, list[RoutableIPPort]]]. *)
Record StaticHostMap : Type := { contents : gmap N (list RoutableIPPort) }.

(** The dict handed to [StaticHostMap(contents=...)] before validation: keys
    and list elements may still be None. *)
Abbreviation RawHostMap := (gmap (option N) (list (option RoutableIPPort))).

(** [dict(pairs)]: a later pair replaces an earlier one with the same key. *)
Definition dict {K V} `{Countable K} (pairs : list (K * V)) : gmap K V :=
  foldl (λ d kv, <[kv.1 := kv.2]> d) ∅ pairs.

Definition valid_entry (k : option N) (v : list (option RoutableIPPort)) : Prop :=
  is_Some k ∧ Forall is_Some v.

Global Instance valid_entry_dec k v : Decision (valid_entry k v).
Proof. unfold valid_entry. apply _. Defined.

Definition validated_entry (kv : option N * list (option RoutableIPPort))
  : option (N * list RoutableIPPort) :=
  match kv.1 with
  | Some k => Some (k, omap id kv.2)
  | None => None
  end.

(** [StaticHostMap(contents=d)]: pydantic rejects a None key and a None
    endpoint, and keeps a well-typed dict as it is. *)
Definition StaticHostMap_new (d : RawHostMap) : Result StaticHostMap :=
  if decide (map_Forall valid_entry d)
  then Ok {| contents := list_to_map (omap validated_entry (map_to_list d)) |}
  else Raise ValidationError.

(** [StaticHostMap()] *)
Definition StaticHostMap_default : StaticHostMap := {| contents := ∅ |}.

(** [NebulaConfig]: the sections [create_node_cert] passes and the three
    skippable ones; every other section keeps its constant default. *)
Record NebulaConfig : Type := {
  pki : Pki;
  static_host_map : StaticHostMap;
  lighthouse : Lighthouse;
  firewall : Firewall;
  routines : Z;
  preferred_ranges : option (list string);
  logging : option string;
  stats : option string;
  message_metrics : bool
}.

Definition NebulaConfig_skip : list string :=
  ["logging"; "stats"; "preferred_ranges"].

Definition NebulaConfig_new (p : Pki) (shm : StaticHostMap) (lh : Lighthouse)
    (fw : Firewall) : NebulaConfig :=
  {| pki := p; static_host_map := shm; lighthouse := lh; firewall := fw;
     routines := 1; preferred_ranges := None; logging := None; stats := None;
     message_metrics := false |}.

(** ** entities.py: nodes and networks *)

Record NebulaNode : Type := {
  name : string;
  ip : option N;
  port : N;
  am_lighthouse : bool;
  public : option RoutableIPPort;
  config : option NebulaConfig;
  groups : list (string + InOutboundItem)
}.

(** [node.ip = a] *)
Definition set_ip (nd : NebulaNode) (a : N) : NebulaNode :=
  {| name := name nd; ip := Some a; port := port nd;
     am_lighthouse := am_lighthouse nd; public := public nd;
     config := config nd; groups := groups nd |}.

(** [node.config = c], after [get_firewall_items_from_groups] has replaced
    the group labels in [node.groups]. *)
Definition set_config (nd : NebulaNode) (g : list (string + InOutboundItem))
    (c : NebulaConfig) : NebulaNode :=
  {| name := name nd; ip := ip nd; port := port nd;
     am_lighthouse := am_lighthouse nd; public := public nd;
     config := Some c; groups := g |}.

(** A network owns its nodes: the list holds one record per node object. *)
Record NebulaNetwork : Type := {
  cert_authority : string;
  net_ip : N;
  nodes : list NebulaNode;
  cidr : N
}.

(** [s.replace(" ", "")] *)
Fixpoint strip_spaces (s : string) : string :=
  match s with
  | EmptyString => EmptyString
  | String c r => if Ascii.eqb c " "%char then strip_spaces r
                  else String c (strip_spaces r)
  end.

(** [NebulaNetwork.network] *)
Definition network (self : NebulaNetwork) : Result ipaddress.IPv4Network :=
  ipaddress.ip_network (net_ip self) (cidr self).

(** [NebulaNetwork.lighthouses] *)
Definition lighthouses (self : NebulaNetwork) : list NebulaNode :=
  filter (λ n, am_lighthouse n = true) (nodes self).

(** The first loop of [model_post_init]:
    [for node in self.nodes: if node.ip is not None: h = h - set([node.ip])] *)
Definition remove_explicit (h : gset N) (ns : list NebulaNode) : gset N :=
  foldl (λ h nd, match ip nd with
                 | Some a => h ∖ {[a]}
                 | None => h
                 end) h ns.

(** [sorted(list(h))] *)
Definition sorted (h : gset N) : list N := merge_sort N.le (elements h).

(** The second loop:
    [for i, node in enumerate(filter(lambda x: x.ip is None, self.nodes)):
         node.ip = hosts[i]]
    [filter] is lazy, so this is one pass over the nodes; [i] counts the nodes
    that passed the filter so far.  [hosts[i]] out of range is an IndexError. *)
Fixpoint assign_hosts (hosts : list N) (i : nat) (ns : list NebulaNode)
  : Result (list NebulaNode) :=
  match ns with
  | [] => Ok []
  | nd :: ns' =>
      match ip nd with
      | Some _ => bindR (assign_hosts hosts i ns') (λ r, Ok (nd :: r))
      | None =>
          match hosts !! i with
          | Some a => bindR (assign_hosts hosts (S i) ns')
                            (λ r, Ok (set_ip nd a :: r))
          | None => Raise IndexError
          end
      end
  end.

(** The candidate pool: the hosts of the block less the explicit addresses. *)
Definition pool (net : ipaddress.IPv4Network) (ns : list NebulaNode) : gset N :=
  remove_explicit (list_to_set (ipaddress.hosts net)) ns.

(** [NebulaNetwork.model_post_init] *)
Definition model_post_init (self : NebulaNetwork) : Result NebulaNetwork :=
  let ca := strip_spaces (cert_authority self) in
  bindR (network self) (λ net,
    let hosts := sorted (pool net (nodes self)) in
    bindR (assign_hosts hosts 0 (nodes self)) (λ ns,
      Ok {| cert_authority := ca; net_ip := net_ip self;
            nodes := ns; cidr := cidr self |})).

(** Nodes lacking an explicit address, and the explicitly set addresses. *)
Definition unset (ns : list NebulaNode) : list NebulaNode :=
  filter (λ nd, ip nd = None) ns.

Definition explicit (ns : list NebulaNode) : list N := omap ip ns.

(** The rank of position [j] among the nodes lacking an address. *)
Definition rank (ns : list NebulaNode) (j : nat) : nat :=
  length (unset (take j ns)).

(** How many addresses of [h] lie below [a]. *)
Definition below (h : gset N) (a : N) : nat :=
  size (filter (λ x, (x < a)%N) h).

(** [NebulaNode.get_firewall_items_from_groups]: the labels in [self.groups]
    are replaced in place, and the list serves both directions. *)
Definition resolve_group (g : string + InOutboundItem) : InOutboundItem :=
  match g with
  | inl label => InOutboundItem_of_group label
  | inr item => item
  end.

Definition get_firewall_items_from_groups (self : NebulaNode)
  : list (string + InOutboundItem) * Firewall :=
  let items := resolve_group <$> groups self in
  (inr <$> items, Firewall_new items items).

(** What the name [filter] can denote in the body of [get_nodes]: the builtin
    or, once the parameter of that name is bound, the str passed for it. *)
Inductive FilterObj : Type :=
  | BuiltinFilter
  | StrObj (s : string).

(** [sub in s] *)
Definition str_contains (sub s : string) : bool :=
  bool_decide (is_Some (String.index 0 sub s)).

(** [list(callee(pred, it))]: the builtin filters; a str is not callable. *)
Definition call_filter (callee : FilterObj) (pred : NebulaNode → bool)
    (it : list NebulaNode) : Result (list NebulaNode) :=
  match callee with
  | BuiltinFilter => Ok (List.filter pred it)
  | StrObj _ => Raise TypeError
  end.

(** [NebulaNetwork.get_nodes]: the parameter [filter] hides the builtin, so
    in the else branch [filter(...)] applies the argument itself. *)
Definition get_nodes (self : NebulaNetwork) (filter : option string)
  : Result (list NebulaNode) :=
  match filter with
  | None => Ok (nodes self)
  | Some f =>
      call_filter (StrObj f) (λ n, str_contains f (name n)) (nodes self)
  end.

(** What the static host map reads of the nodes of a network. *)
Definition view (ns : list NebulaNode)
  : list (bool * option N * option RoutableIPPort) :=
  (λ n, (am_lighthouse n, ip n, public n)) <$> ns.

(** [[(n.ip, [n.public]) for n in self.lighthouses]] *)
Definition host_pairs (nw : NebulaNetwork)
  : list (option N * list (option RoutableIPPort)) :=
  (λ n, (ip n, [public n])) <$> lighthouses nw.

(** The lighthouse that [dict] keeps for its address: the last one declared
    with it, since a later pair replaces an earlier one with the same key. *)
Definition kept_lighthouse (nw : NebulaNetwork) (n : NebulaNode) : Prop :=
  ∃ l1 l2, lighthouses nw = l1 ++ n :: l2 ∧ ip n ∉ ip <$> l2.

(** ** io.py: templates, output paths, signing *)

Definition NODE_CONFIG_TEMPLATE : string := "{name}.yaml".
Definition NODE_COMPOSE_TEMPLATE : string := "{name}_docker-compose.yml".
Definition NEBULA_IMAGE_VERSION : string := "latest".
Definition NEBULA_IMAGE : string := "nebulaoss/nebula".
Definition nebula_image : string := NEBULA_IMAGE +:+ ":" +:+ NEBULA_IMAGE_VERSION.

(** [template.format(name=v)] for a template whose only replacement field is
    [{name}]: literal text is copied, each field is replaced by [v]. *)
Fixpoint format_go (skip : nat) (t : string) (v : string) : string :=
  match t with
  | EmptyString => EmptyString
  | String c r =>
      match skip with
      | S k => format_go k r v
      | O => if String.prefix "{name}" t then v +:+ format_go 5 r v
             else String c (format_go 0 r v)
      end
  end.

Definition format_name (t : string) (v : string) : string := format_go 0 t v.

(** [s.endswith(suffix)] *)
Definition endswith (s suffix : string) : bool :=
  String.eqb (String.substring (String.length s - String.length suffix)%nat
                               (String.length suffix) s) suffix
  && bool_decide (String.length suffix ≤ String.length s)%nat.

(** The arguments of one [dclient.containers.run] call that vary. *)
Record RunArgs : Type := {
  run_name : string;
  run_image : string;
  run_command : string;
  run_entrypoint : string;
  run_working_dir : string
}.

(** The filesystem as the set of existing paths, and the container runs made
    so far, each with the paths that existed when it started. *)
Record World : Type := {
  paths : gset string;
  runs : list (RunArgs * gset string)
}.

(** A computation that acts on the world and may raise. *)
Definition M (A : Type) : Type := World → World * Result A.

Definition ret {A} (a : A) : M A := λ w, (w, Ok a).
Definition raise {A} (e : PyExc) : M A := λ w, (w, Raise e).
Definition bind {A B} (m : M A) (k : A → M B) : M B :=
  λ w, match m w with
       | (w', Ok a) => k a w'
       | (w', Raise e) => (w', Raise e)
       end.
Definition lift {A} (r : Result A) : M A := λ w, (w, r).

(** [try: m except Exception as me: h me] *)
Definition try_except {A} (m : M A) (h : PyExc → M A) : M A :=
  λ w, match m w with
       | (w', Ok a) => (w', Ok a)
       | (w', Raise e) => h e w'
       end.

Notation "x <- m ;; k" := (bind m (λ x, k))
  (at level 100, m at next level, right associativity, only parsing).
Notation "m >>> k" := (bind m (λ _, k))
  (at level 100, right associativity, only parsing).

(** [os.path.exists], [os.mkdir], [os.unlink] *)
Definition os_path_exists (p : string) : M bool :=
  λ w, (w, Ok (bool_decide (p ∈ paths w))).
Definition os_mkdir (p : string) : M unit :=
  λ w, ({| paths := paths w ∪ {[p]}; runs := runs w |}, Ok tt).
Definition os_unlink (p : string) : M unit :=
  λ w, ({| paths := paths w ∖ {[p]}; runs := runs w |}, Ok tt).

(** The [exist] argument of [node_outputs] and [ca_outputs]. *)
Inductive ExistMode : Type := ExistFalse | ExistTrue | ExistAll | ExistAny.

(** What they return: the three paths, a flag, or None. *)
Inductive Outputs : Type :=
  | Files (fs : list string)
  | Flag (b : bool)
  | NoOutputs.

(** [a, b, c = outputs] *)
Definition unpack3 (o : Outputs) : Result (string * string * string) :=
  match o with
  | Files [a; b; c] => Ok (a, b, c)
  | Files (_ :: _ :: _ :: _ :: _) =>
      Raise (ValueError "too many values to unpack (expected 3)")
  | Files _ => Raise (ValueError "not enough values to unpack")
  | Flag _ | NoOutputs => Raise TypeError
  end.

(** Truth value of the result, as [if not outputs] tests it. *)
Definition truthy (o : Outputs) : bool :=
  match o with
  | Files fs => negb (bool_decide (fs = []))
  | Flag b => b
  | NoOutputs => false
  end.

(** [repr] of a list of str, for paths without quotes or escapes. *)
Definition repr_list (l : list string) : string :=
  "[" +:+ String.concat ", " ((λ s, "'" +:+ s +:+ "'") <$> l) +:+ "]".

(** [str(node.ip)] *)
Definition str_ip (o : option N) : string :=
  match o with
  | Some a => ipaddress.str a
  | None => "None"
  end.

(** A node given by name or as the node itself. *)
Inductive NodeRef : Type :=
  | ByName (s : string)
  | ByNode (n : NebulaNode).

(** [if type(node) is not str: node = node.name] *)
Definition node_ref_name (node : NodeRef) : string :=
  match node with
  | ByName s => s
  | ByNode n => name n
  end.

(** The [node] argument of [save_config]. *)
Inductive NodeArg : Type :=
  | ArgNone
  | ArgStr (s : string)
  | ArgNode (n : NebulaNode).

(** The three output files of an artifact set, and its state as the code
    detects it: Complete when all three exist, Partial when some but not all
    exist, Absent when none exists. *)
Definition artifact_files (prefix : string) : list string :=
  [prefix +:+ "." +:+ "crt"; prefix +:+ "." +:+ "key"; prefix +:+ "." +:+ "png"].

Inductive ArtifactState : Type := Absent | Partial | Complete.

Definition artifact_state (prefix : string) (p : gset string) : ArtifactState :=
  if forallb (λ f, bool_decide (f ∈ p)) (artifact_files prefix) then Complete
  else if existsb (λ f, bool_decide (f ∈ p)) (artifact_files prefix) then Partial
  else Absent.

(** The world once the files [fs] are unlinked. *)
Definition remove_files (fs : list string) (w : World) : World :=
  {| paths := paths w ∖ list_to_set fs; runs := runs w |}.

Section environment.

(** [os.path.abspath], and the container runtime behind
    [dclient.containers.run]: from the arguments and the existing paths to
    the paths afterwards and the exception raised, if any. *)
Variable abspath : string → string.
Variable docker : RunArgs → gset string → gset string * option PyExc.

(** *** entities._NebulaTempFiles *)

Definition temp_dir (nw : NebulaNetwork) : string :=
  abspath (cert_authority nw).

Definition ca_cert_prefix (nw : NebulaNetwork) : string :=
  temp_dir nw +:+ "/" +:+ cert_authority nw +:+ "_" +:+
  ipaddress.str (net_ip nw) +:+ "_" +:+ pretty (cidr nw).

Definition node_cert_prefix (nw : NebulaNetwork) (node : NodeRef) : string :=
  temp_dir nw +:+ "/" +:+ node_ref_name node.

Definition node_config (nw : NebulaNetwork) (node : NodeRef) : string :=
  let config := format_name NODE_CONFIG_TEMPLATE (node_ref_name node) in
  temp_dir nw +:+ "/" +:+ config.

Definition node_compose (nw : NebulaNetwork) (node : NodeRef) : string :=
  let compose := format_name NODE_COMPOSE_TEMPLATE (node_ref_name node) in
  temp_dir nw +:+ "/" +:+ compose.

(** *** io.py *)

(** The world once the output directory of the network exists. *)
Definition ensure_dir (nw : NebulaNetwork) (w : World) : World :=
  {| paths := paths w ∪ {[temp_dir nw]}; runs := runs w |}.

(** [make_temp_dir(network)] *)
Definition make_temp_dir (nw : NebulaNetwork) : M string :=
  let dir := temp_dir nw in
  e <- os_path_exists dir ;;
  (if negb e then os_mkdir dir else ret tt) >>>
  ret dir.

(** The loop shared by [node_outputs] and [ca_outputs]:
    [for ext in ("crt", "key", "png"):
         fs.append(f"{prefix}.{ext}")
         if assert_exist: assert os.path.exists(fs[-1])
         if rm_exist:
             if os.path.exists(fs[-1]): os.unlink(fs[-1])] *)
Fixpoint outputs_loop (prefix : string) (exts : list string)
    (assert_exist rm_exist : bool) (fs : list string) : M (list string) :=
  match exts with
  | [] => ret fs
  | ext :: exts' =>
      let f := prefix +:+ "." +:+ ext in
      (if assert_exist
       then e <- os_path_exists f ;;
            if e then ret tt else raise AssertionError
       else ret tt) >>>
      (if rm_exist
       then e <- os_path_exists f ;;
            if e then os_unlink f else ret tt
       else ret tt) >>>
      outputs_loop prefix exts' assert_exist rm_exist (fs ++ [f])
  end.

(** [all([os.path.exists(f) for f in fs])], [any(...)] *)
Definition all_exist (fs : list string) : M bool :=
  λ w, (w, Ok (forallb (λ f, bool_decide (f ∈ paths w)) fs)).
Definition any_exist (fs : list string) : M bool :=
  λ w, (w, Ok (existsb (λ f, bool_decide (f ∈ paths w)) fs)).

Definition outputs (prefix : string) (exist : ExistMode)
    (assert_exist rm_exist : bool) : M Outputs :=
  fs <- outputs_loop prefix ["crt"; "key"; "png"] assert_exist rm_exist [] ;;
  match exist with
  | ExistFalse => ret (Files fs)
  | ExistAll => b <- all_exist fs ;; ret (Flag b)
  | ExistAny => b <- any_exist fs ;; ret (Flag b)
  | ExistTrue => ret NoOutputs
  end.

(** [node_outputs(network, node, exist, assert_exist, rm_exist)] *)
Definition node_outputs (nw : NebulaNetwork) (node : NebulaNode)
    (exist : ExistMode) (assert_exist rm_exist : bool) : M Outputs :=
  outputs (node_cert_prefix nw (ByNode node)) exist assert_exist rm_exist.

(** [ca_outputs(network, exist, assert_exist, rm_exist)] *)
Definition ca_outputs (nw : NebulaNetwork)
    (exist : ExistMode) (assert_exist rm_exist : bool) : M Outputs :=
  outputs (ca_cert_prefix nw) exist assert_exist rm_exist.

(** [get_working_dir(network)] *)
Definition get_working_dir (nw : NebulaNetwork) : string := abspath ".".

(** [dclient.containers.run(...)], [detach=False]: runs to completion. *)
Definition containers_run (args : RunArgs) : M unit :=
  λ w, let '(p, e) := docker args (paths w) in
       ({| paths := p; runs := runs w ++ [(args, paths w)] |},
        match e with
        | None => Ok tt
        | Some ex => Raise ex
        end).

(** [str(network.network)] *)
Definition str_network (net : ipaddress.IPv4Network) : string :=
  ipaddress.str (ipaddress.network_address net) +:+ "/" +:+
  pretty (ipaddress.prefixlen net).

Definition ca_command (nw : NebulaNetwork) (net : ipaddress.IPv4Network)
  : string :=
  let ca_out := ca_cert_prefix nw in
  "ca -name " +:+ cert_authority nw +:+ " -ips " +:+ str_network net +:+
  " -out-key " +:+ ca_out +:+ ".key -out-crt " +:+ ca_out +:+
  ".crt -out-qr " +:+ ca_out +:+ ".png".

Definition ca_run_args (nw : NebulaNetwork) (net : ipaddress.IPv4Network)
  : RunArgs :=
  {| run_name := "network_CA_certificate_" +:+ cert_authority nw +:+ "_docker";
     run_image := nebula_image;
     run_command := ca_command nw net;
     run_entrypoint := "/nebula-cert";
     run_working_dir := get_working_dir nw |}.

(** [network_cert(network, overwrite)] *)
Definition network_cert (nw : NebulaNetwork) (overwrite : bool) : M unit :=
  make_temp_dir nw >>>
  (if overwrite then ca_outputs nw ExistFalse false true >>> ret tt
   else ret tt) >>>
  net <- lift (network nw) ;;
  all <- ca_outputs nw ExistAll false false ;;
  if negb (truthy all) then
    any <- ca_outputs nw ExistAny false false ;;
    (if truthy any then
       f <- ca_outputs nw ExistFalse false false ;;
       match f with
       | Files fs =>
           raise (ValueError ("Missing some of the following files: "
                              +:+ repr_list fs))
       | _ => raise TypeError
       end
     else ret tt) >>>
    try_except (containers_run (ca_run_args nw net)) (λ me, raise me)
  else ret tt.

Definition node_command (nw : NebulaNetwork) (node : NebulaNode)
    (node_cert node_key node_qr : string) : string :=
  let ca_files_prefix := ca_cert_prefix nw in
  "sign -name " +:+ name node +:+ " -ip " +:+ str_ip (ip node) +:+ "/" +:+
  pretty (cidr nw) +:+ " -ca-crt " +:+ ca_files_prefix +:+
  ".crt -ca-key " +:+ ca_files_prefix +:+ ".key -out-crt " +:+ node_cert +:+
  " -out-key " +:+ node_key +:+ " -out-qr " +:+ node_qr.

Definition node_run_args (nw : NebulaNetwork) (node : NebulaNode)
    (node_cert node_key node_qr : string) : RunArgs :=
  {| run_name := name node +:+ "_sign_cert_docker";
     run_image := nebula_image;
     run_command := node_command nw node node_cert node_key node_qr;
     run_entrypoint := "/nebula-cert";
     run_working_dir := get_working_dir nw |}.

(** The output prefix of a node, its run arguments, and the two errors
    raised on a Partial set, as [sign_node] and [network_cert] build them. *)
Definition node_prefix (nw : NebulaNetwork) (node : NebulaNode) : string :=
  node_cert_prefix nw (ByNode node).

Definition node_args (nw : NebulaNetwork) (node : NebulaNode) : RunArgs :=
  let p := node_prefix nw node in
  node_run_args nw node (p +:+ "." +:+ "crt") (p +:+ "." +:+ "key")
                (p +:+ "." +:+ "png").

Definition missing_node (nw : NebulaNetwork) (node : NebulaNode) : PyExc :=
  let p := node_prefix nw node in
  ValueError ("Missing some of the following files: " +:+
              (p +:+ "." +:+ "crt") +:+ ", " +:+ (p +:+ "." +:+ "key") +:+
              ", and " +:+ (p +:+ "." +:+ "png")).

Definition missing_ca (nw : NebulaNetwork) : PyExc :=
  ValueError ("Missing some of the following files: " +:+
              repr_list (artifact_files (ca_cert_prefix nw))).

(** What the specification expects of the external signing process: a run
    that reports success has written its output files and has removed
    nothing. *)
Definition signing_contract (args : RunArgs) (outs : list string) : Prop :=
  ∀ p p', docker args p = (p', None) → p ⊆ p' ∧ Forall (λ f, f ∈ p') outs.

(** [sign_node(network, node, overwrite)] *)
Definition sign_node (nw : NebulaNetwork) (node : NebulaNode)
    (overwrite : bool) : M unit :=
  make_temp_dir nw >>>
  network_cert nw false >>>
  (if overwrite then node_outputs nw node ExistFalse false true >>> ret tt
   else ret tt) >>>
  o <- node_outputs nw node ExistFalse false false ;;
  t <- lift (unpack3 o) ;;
  let '(node_cert, node_key, node_qr) := t in
  all <- node_outputs nw node ExistAll false false ;;
  if negb (truthy all) then
    any <- node_outputs nw node ExistAny false false ;;
    (if truthy any then
       raise (ValueError ("Missing some of the following files: " +:+
                          node_cert +:+ ", " +:+ node_key +:+ ", and " +:+
                          node_qr))
     else ret tt) >>>
    try_except
      (containers_run (node_run_args nw node node_cert node_key node_qr))
      (λ me, raise me)
  else ret tt.

(** [sign_nodes(network, overwrite)], consumed to the end. *)
Fixpoint sign_each (nw : NebulaNetwork) (ns : list NebulaNode)
    (overwrite : bool) : M (list unit) :=
  match ns with
  | [] => ret []
  | node :: rest =>
      u <- sign_node nw node overwrite ;;
      us <- sign_each nw rest overwrite ;;
      ret (u :: us)
  end.

Definition sign_nodes (nw : NebulaNetwork) (overwrite : bool) : M (list unit) :=
  ns <- lift (get_nodes nw None) ;;
  sign_each nw ns overwrite.

(** *** entities.NebulaNetwork.create_node_cert *)

(** The static host map of one node:
    [if not node.am_lighthouse:
         shm = StaticHostMap(
             contents=dict([(n.ip, [n.public]) for n in self.lighthouses]))
     else:
         shm = StaticHostMap()] *)
Definition node_static_host_map (nw : NebulaNetwork) (node : NebulaNode)
  : Result StaticHostMap :=
  if negb (am_lighthouse node)
  then StaticHostMap_new (dict (host_pairs nw))
  else Ok StaticHostMap_default.

(** The body of the loop after signing: the configuration of [node] and
    its resolved groups. *)
Definition compose_config (nw : NebulaNetwork) (node : NebulaNode)
    (ca_cert node_cert node_key : string)
  : Result (list (string + InOutboundItem) * NebulaConfig) :=
  let pki := Pki_new ca_cert node_cert node_key in
  let lh := Lighthouse_new (am_lighthouse node) in
  let '(g, fw) := get_firewall_items_from_groups node in
  bindR (node_static_host_map nw node) (λ shm,
    Ok (g, NebulaConfig_new pki shm lh fw)).

Definition set_node (nw : NebulaNetwork) (i : nat) (nd : NebulaNode)
  : NebulaNetwork :=
  {| cert_authority := cert_authority nw; net_ip := net_ip nw;
     nodes := <[i := nd]> (nodes nw); cidr := cidr nw |}.

(** [for node in self.nodes: ...]: [todo] are the nodes still to visit, the
    first of them at position [i] of [self.nodes]. *)
Fixpoint create_node_cert_from (nw : NebulaNetwork) (i : nat)
    (todo : list NebulaNode) : M NebulaNetwork :=
  match todo with
  | [] => ret nw
  | node :: rest =>
      sign_node nw node false >>>
      co <- ca_outputs nw ExistFalse false false ;;
      c3 <- lift (unpack3 co) ;;
      no <- node_outputs nw node ExistFalse false false ;;
      n3 <- lift (unpack3 no) ;;
      gc <- lift (compose_config nw node c3.1.1 n3.1.1 n3.1.2) ;;
      create_node_cert_from (set_node nw i (set_config node gc.1 gc.2))
                            (S i) rest
  end.

Definition create_node_cert (nw : NebulaNetwork) : M NebulaNetwork :=
  create_node_cert_from nw 0 (nodes nw).

(** *** io.save_config *)

(** [open(output, "wt")] and the write: the file exists afterwards. *)
Definition write_file (p : string) : M unit :=
  λ w, ({| paths := paths w ∪ {[p]}; runs := runs w |}, Ok tt).

(** [NebulaNode.dump_config(output=path)] *)
Definition dump_config (self : NebulaNode) (output : string) : M unit :=
  match config self with
  | None => raise AssertionError
  | Some _ => write_file output
  end.

(** The binding of the local [name] before [network.get_nodes(name)]:
    [if node is not None:
         if type(node) is not str: name = node.name
     else: name = node]
    A str argument leaves [name] unbound. *)
Definition save_config_name (node : NodeArg) : Result (option string) :=
  match node with
  | ArgNone => Ok None
  | ArgStr _ => Raise UnboundLocalError
  | ArgNode n => Ok (Some (name n))
  end.

(** The loop of [save_config]; the path has no replacement field left, so
    the second [format] returns it as it is. *)
Fixpoint save_config_each (nw : NebulaNetwork) (ns : list NebulaNode)
  : M (list unit) :=
  match ns with
  | [] => ret []
  | node :: rest =>
      let config_output_path := node_config nw (ByName (name node)) in
      u <- dump_config node config_output_path ;;
      us <- save_config_each nw rest ;;
      ret (u :: us)
  end.

(** [save_config(network, node)], consumed to the end. *)
Definition save_config (nw : NebulaNetwork) (node : NodeArg) : M (list unit) :=
  nm <- lift (save_config_name node) ;;
  ns <- lift (get_nodes nw nm) ;;
  save_config_each nw ns.

(** [NebulaNetwork.save_node_configs] *)
Definition save_node_configs (nw : NebulaNetwork) (node : NodeArg)
  : M (list unit) :=
  save_config nw node.

End environment.

(** ** A concrete environment *)

(** Working directory [/w]. *)
Definition abspath_w (p : string) : string :=
  if String.eqb p "." then "/w" else "/w/" +:+ p.

(** [command.split(" ")] *)
Fixpoint words_go (cur : string) (s : string) : list string :=
  match s with
  | EmptyString => [cur]
  | String c r => if Ascii.eqb c " "%char then cur :: words_go "" r
                  else words_go (cur +:+ String c "") r
  end.

Definition words (s : string) : list string := words_go "" s.

(** The argument that follows [flag] on the command line. *)
Fixpoint arg_after (flag : string) (ws : list string) : option string :=
  match ws with
  | [] => None
  | w :: rest => if String.eqb w flag then head rest else arg_after flag rest
  end.

Definition out_files (flags : list string) (args : RunArgs) : gset string :=
  list_to_set (omap (λ f, arg_after f (words (run_command args))) flags).

(** A signing run that succeeds: it writes the three files it was asked for. *)
Definition docker_ok (args : RunArgs) (p : gset string)
  : gset string * option PyExc :=
  (p ∪ out_files ["-out-crt"; "-out-key"; "-out-qr"] args, None).


(** A run that exits with status 0 and writes nothing. *)
Definition docker_nothing (args : RunArgs) (p : gset string)
  : gset string * option PyExc :=
  (p, None).

Definition world0 (p : list string) : World :=
  {| paths := list_to_set p; runs := [] |}.

(** The example of the specification: 10.100.100.0/24 with nodes A (.5),
    B (.6, lighthouse, public 203.0.113.1:4242) and C (no address). *)
Definition ip4 (a b c d : N) : N := (((a * 256 + b) * 256 + c) * 256 + d)%N.

Definition mk_node (n : string) (a : option N) (lh : bool)
    (pub : option RoutableIPPort) : NebulaNode :=
  {| name := n; ip := a; port := 4242; am_lighthouse := lh; public := pub;
     config := None; groups := [] |}.

Definition node_A : NebulaNode :=
  mk_node "A" (Some (ip4 10 100 100 5)) false None.
Definition node_B : NebulaNode :=
  mk_node "B" (Some (ip4 10 100 100 6)) true
          (Some {| rip := ip4 203 0 113 1; rport := 4242 |}).
Definition node_C : NebulaNode := mk_node "C" None false None.

Definition example_network : NebulaNetwork :=
  {| cert_authority := "Test CA"; net_ip := ip4 10 100 100 0;
     nodes := [node_A; node_B; node_C]; cidr := 24 |}.

(** The example network once constructed. *)
Definition node_C1 : NebulaNode := set_ip node_C (ip4 10 100 100 1).

Definition built_network : NebulaNetwork :=
  {| cert_authority := "TestCA"; net_ip := ip4 10 100 100 0;
     nodes := [node_A; node_B; node_C1]; cidr := 24 |}.

(** A node whose name is that of the authority files of its network. *)
Definition node_clash : NebulaNode :=
  mk_node "ca_10.0.0.0_24" (Some (ip4 10 0 0 1)) false None.

Definition clash_network : NebulaNetwork :=
  {| cert_authority := "ca"; net_ip := ip4 10 0 0 0;
     nodes := [node_clash]; cidr := 24 |}.

Definition example_block : ipaddress.IPv4Network :=
  {| ipaddress.network_address := ip4 10 100 100 0; ipaddress.prefixlen := 24 |}.

(** A /30 block, whose two hosts are both held explicitly, and a third node
    without an address. *)
Definition full_network : NebulaNetwork :=
  {| cert_authority := "Full"; net_ip := ip4 10 0 0 0;
     nodes := [mk_node "X1" (Some (ip4 10 0 0 1)) false None;
               mk_node "X2" (Some (ip4 10 0 0 2)) false None;
               mk_node "X3" None false None];
     cidr := 30 |}.

Definition full_block : ipaddress.IPv4Network :=
  {| ipaddress.network_address := ip4 10 0 0 0; ipaddress.prefixlen := 30 |}.

(** Two nodes declared with the same explicit address. *)
Definition twin_network : NebulaNetwork :=
  {| cert_authority := "Twin"; net_ip := ip4 10 100 100 0;
     nodes := [mk_node "T1" (Some (ip4 10 100 100 5)) false None;
               mk_node "T2" (Some (ip4 10 100 100 5)) false None];
     cidr := 24 |}.

Definition clash_block : ipaddress.IPv4Network :=
  {| ipaddress.network_address := ip4 10 0 0 0; ipaddress.prefixlen := 24 |}.

(** Output prefixes of the examples, and a few filesystems. *)
Definition ca_w : string := ca_cert_prefix abspath_w built_network.
Definition nd_w : string := node_prefix abspath_w built_network node_C1.
Definition ca_clash : string := ca_cert_prefix abspath_w clash_network.

Definition w_ca_partial : World :=
  world0 ["/w/TestCA"; "/w/TestCA/TestCA_10.100.100.0_24.key"].
Definition w_ca_complete : World :=
  world0 ["/w/TestCA"; "/w/TestCA/TestCA_10.100.100.0_24.crt";
          "/w/TestCA/TestCA_10.100.100.0_24.key";
          "/w/TestCA/TestCA_10.100.100.0_24.png"].
Definition w_node_partial : World :=
  world0 ["/w/TestCA"; "/w/TestCA/C.crt"].
Definition w_node_complete : World :=
  world0 ["/w/TestCA"; "/w/TestCA/C.crt"; "/w/TestCA/C.key"; "/w/TestCA/C.png"].
Definition w_clash : World :=
  world0 ["/w/ca"; "/w/ca/ca_10.0.0.0_24.crt"; "/w/ca/ca_10.0.0.0_24.key";
          "/w/ca/ca_10.0.0.0_24.png"].

(** A [Pki] with its skippable fields unset, and one with them set to their
    falsy values. *)
Definition pki_unset : Pki := Pki_new "ca.crt" "node.crt" "node.key".
Definition pki_falsy : Pki :=
  {| ca := "ca.crt"; cert := "node.crt"; key := "node.key";
     blocklist := Some []; disconnect_invalid := Some false |}.

(** ** More of the package: serialization of address maps, deploy.py *)

(** [AddressMapping.addrs_to_strs] on a static host map:
    [if len(self.contents) > 0:
         out_dict = {}
         for k in self.contents.keys():
             c = [str(e) for e in self.contents[k]]
             out_dict[str(k)] = c
         return out_dict]
    and None when the map is empty. *)
Definition addrs_to_strs (self : StaticHostMap)
  : option (gmap string (list string)) :=
  if decide (0 < size (contents self))
  then Some (dict ((λ kv : N * list RoutableIPPort,
                      (ipaddress.str kv.1, RoutableIPPort_str <$> kv.2))
                   <$> map_to_list (contents self)))
  else None.

(** deploy.DockerService and deploy.DockerCompose *)
Record DockerService : Type := {
  image : string;
  container_name : string;
  volumes : list string;
  ports : list string
}.

Record DockerCompose : Type := { services : list (string * DockerService) }.

(** [deploy.get_docker_compose(node)] *)
Definition get_docker_compose (node : NebulaNode) : DockerCompose :=
  let config_path := format_name NODE_CONFIG_TEMPLATE (name node) in
  let ds :=
    {| image := nebula_image;
       container_name := "nebula_node_" +:+ name node;
       volumes := [config_path +:+ ":/etc/nebula/" +:+ config_path];
       ports := [pretty (port node) +:+ ":" +:+ pretty (port node)] |} in
  {| services := [("nebula_node", ds)] |}.

Section environment_more.

Variable abspath : string → string.
Variable docker : RunArgs → gset string → gset string * option PyExc.

(** [NebulaNetwork.create_network_cert] *)
Definition create_network_cert (nw : NebulaNetwork) : M unit :=
  network_cert abspath docker nw false.

(** [deploy.write_compose(model, output=path)]: the file is written. *)
Definition write_compose (model : DockerCompose) (output : string) : M unit :=
  write_file output.

(** The loop of [deploy.save_compose]; the path has no replacement field
    left, so [format] returns it as it is. *)
Fixpoint save_compose_each (nw : NebulaNetwork) (ns : list NebulaNode)
  : M (list unit) :=
  match ns with
  | [] => ret []
  | node :: rest =>
      let compose_path := node_compose abspath nw (ByNode node) in
      u <- write_compose (get_docker_compose node) compose_path ;;
      us <- save_compose_each nw rest ;;
      ret (u :: us)
  end.

(** [deploy.save_compose(network, node)], consumed to the end; the local
    [name] is bound as in [save_config]. *)
Definition save_compose (nw : NebulaNetwork) (node : NodeArg) : M (list unit) :=
  nm <- lift (save_config_name node) ;;
  ns <- lift (get_nodes nw nm) ;;
  save_compose_each nw ns.

(** [NebulaNetwork.save_node_composes] *)
Definition save_node_composes (nw : NebulaNetwork) (node : NodeArg)
  : M (list unit) :=
  save_compose nw node.

End environment_more.

(** A string without braces, which [str.format] returns as it is. *)
Fixpoint no_brace (s : string) : bool :=
  match s with
  | EmptyString => true
  | String c r => negb (Ascii.eqb c "{"%char) && negb (Ascii.eqb c "}"%char)
                  && no_brace r
  end.

(** The example network with a configuration attached to every node. *)
Definition example_config : NebulaConfig :=
  NebulaConfig_new pki_unset StaticHostMap_default (Lighthouse_new false)
                   (Firewall_new [] []).

Definition configured_network : NebulaNetwork :=
  {| cert_authority := "TestCA"; net_ip := ip4 10 100 100 0;
     nodes := (λ nd, set_config nd [] example_config)
              <$> [node_A; node_B; node_C1];
     cidr := 24 |}.

(** A lighthouse without a public endpoint, beside an ordinary node. *)
Definition blind_network : NebulaNetwork :=
  {| cert_authority := "Blind"; net_ip := ip4 10 100 100 0;
     nodes := [mk_node "L" (Some (ip4 10 100 100 1)) true None;
               mk_node "N" (Some (ip4 10 100 100 2)) false None];
     cidr := 24 |}.

(** Two lighthouses declared with the same address and different public
    endpoints, beside an ordinary node. *)
Definition ep_1 : RoutableIPPort := {| rip := ip4 203 0 113 1; rport := 4242 |}.
Definition ep_2 : RoutableIPPort := {| rip := ip4 203 0 113 2; rport := 4242 |}.

Definition shadowed_network : NebulaNetwork :=
  {| cert_authority := "Shadow"; net_ip := ip4 10 100 100 0;
     nodes := [mk_node "L1" (Some (ip4 10 100 100 1)) true (Some ep_1);
               mk_node "L2" (Some (ip4 10 100 100 1)) true (Some ep_2);
               mk_node "N" (Some (ip4 10 100 100 2)) false None];
     cidr := 24 |}.

(** A node with a group label and an explicit rule. *)
Definition rule_ssh : InOutboundItem :=
  {| io_port := Some 22%N; io_proto := "tcp"; io_host := None;
     io_groups := None; io_group := Some "admins" |}.

Definition node_grouped : NebulaNode :=
  {| name := "G"; ip := Some (ip4 10 100 100 7); port := 4242;
     am_lighthouse := false; public := None; config := None;
     groups := [inl "web"; inr rule_ssh] |}.

(** A string without a dot, as the decimal text of an octet is. *)
Fixpoint dotless (s : string) : bool :=
  match s with
  | EmptyString => true
  | String c r => negb (Ascii.eqb c "."%char) && dotless r
  end.

(** The example network signed, and composed, from an empty filesystem by
    a signing process that succeeds. *)
Definition signed_world : World :=
  (sign_nodes abspath_w docker_ok built_network false (world0 [])).1.

Definition composed_world : World :=
  (create_node_cert abspath_w docker_ok built_network (world0 [])).1.

Definition composed_network : NebulaNetwork :=
  match (create_node_cert abspath_w docker_ok built_network (world0 [])).2 with
  | Ok nw => nw
  | Raise _ => built_network
  end.

(** * Properties *)

(** ** Address allocation *)

Lemma elem_of_remove_explicit (h : gset N) ns a :
  a ∈ remove_explicit h ns ↔ a ∈ h ∧ a ∉ explicit ns.
Proof.
  revert h. unfold remove_explicit, explicit.
  induction ns as [|nd ns IH]; intros h; simpl.
  - split; [intros ?; split; [done|apply not_elem_of_nil]|tauto].
  - rewrite IH. destruct (ip nd) as [b|]; simpl.
    + rewrite elem_of_difference, elem_of_singleton, not_elem_of_cons. tauto.
    + tauto.
Qed.

Lemma elem_of_pool net ns a :
  a ∈ pool net ns ↔ a ∈ ipaddress.hosts net ∧ a ∉ explicit ns.
Proof. unfold pool. rewrite elem_of_remove_explicit, elem_of_list_to_set. done. Qed.

Lemma sorted_perm (h : gset N) : sorted h ≡ₚ elements h.
Proof. apply merge_sort_Permutation. Qed.

Lemma elem_of_sorted (h : gset N) a : a ∈ sorted h ↔ a ∈ h.
Proof. rewrite sorted_perm. apply elem_of_elements. Qed.

Lemma NoDup_sorted (h : gset N) : NoDup (sorted h).
Proof. rewrite sorted_perm. apply NoDup_elements. Qed.

Lemma length_sorted (h : gset N) : length (sorted h) = size h.
Proof. by rewrite sorted_perm. Qed.

Lemma sorted_ascending (h : gset N) : StronglySorted N.le (sorted h).
Proof. apply (StronglySorted_merge_sort N.le). Qed.

Lemma sorted_lookup_below (h : gset N) i a :
  sorted h !! i = Some a → a ∈ h ∧ below h a = i.
Proof.
  intros Hi. split.
  { apply elem_of_sorted. by eapply list_elem_of_lookup_2. }
  pose proof (take_drop_middle _ _ _ Hi) as Hsplit.
  pose proof (NoDup_sorted h) as Hnd.
  pose proof (sorted_ascending h) as Hss.
  rewrite <-Hsplit in Hnd, Hss.
  apply NoDup_app in Hnd as (Hnd1 & Hdisj & Hnd2).
  apply NoDup_cons in Hnd2 as [Ha2 _].
  apply StronglySorted_app in Hss as (Hlr & _ & Hr).
  apply StronglySorted_cons in Hr as [Hr _].
  assert (filter (λ x, (x < a)%N) h = list_to_set (take i (sorted h))) as Heq.
  { apply set_eq. intros x.
    rewrite elem_of_filter, elem_of_list_to_set, <-elem_of_sorted.
    rewrite <-Hsplit at 1. rewrite elem_of_app, elem_of_cons. split.
    - intros [Hlt [Hx|[->|Hx]]]; [done|lia|].
      rewrite Forall_forall in Hr. apply Hr in Hx. lia.
    - intros Hx. split; [|by left].
      assert (x ≤ a)%N by (apply Hlr; [done|by left]).
      assert (x ≠ a) by (intros ->; by apply (Hdisj a); [|left]).
      lia. }
  unfold below. rewrite Heq, size_list_to_set by done.
  rewrite length_take. apply lookup_lt_Some in Hi. lia.
Qed.

Lemma unset_cons_None nd ns : ip nd = None → unset (nd :: ns) = nd :: unset ns.
Proof. intros H. unfold unset. by rewrite filter_cons_True. Qed.

Lemma unset_cons_Some nd ns a : ip nd = Some a → unset (nd :: ns) = unset ns.
Proof. intros H. unfold unset. rewrite filter_cons_False; [done|]. by rewrite H. Qed.

Lemma rank_0 ns : rank ns 0 = 0.
Proof. done. Qed.

Lemma rank_S_None nd ns j : ip nd = None → rank (nd :: ns) (S j) = S (rank ns j).
Proof. intros H. unfold rank. simpl. by rewrite unset_cons_None. Qed.

Lemma rank_S_Some nd ns j a : ip nd = Some a → rank (nd :: ns) (S j) = rank ns j.
Proof. intros H. unfold rank. simpl. by erewrite unset_cons_Some. Qed.

Lemma assign_hosts_ok hosts ns : ∀ i,
  i + length (unset ns) ≤ length hosts →
  ∃ ns', assign_hosts hosts i ns = Ok ns' ∧ length ns' = length ns ∧
    ∀ j nd, ns !! j = Some nd →
      match ip nd with
      | Some _ => ns' !! j = Some nd
      | None => ∃ a, hosts !! (i + rank ns j) = Some a ∧
                     ns' !! j = Some (set_ip nd a)
      end.
Proof.
  induction ns as [|nd ns IH]; intros i Hlen.
  - exists []. repeat split. intros j nd Hj. by rewrite lookup_nil in Hj.
  - simpl. destruct (ip nd) as [b|] eqn:Hip.
    + erewrite unset_cons_Some in Hlen by done.
      destruct (IH i Hlen) as (ns' & -> & Hl & Hspec). simpl.
      exists (nd :: ns'). split; [done|]. split; [simpl; lia|].
      intros [|j] nd' Hj; simpl in *.
      * injection Hj as <-. by rewrite Hip.
      * specialize (Hspec j nd' Hj). erewrite rank_S_Some by done. done.
    + rewrite unset_cons_None in Hlen by done. simpl in Hlen.
      destruct (hosts !! i) as [a|] eqn:Hh.
      2:{ apply lookup_ge_None in Hh. lia. }
      destruct (IH (S i)) as (ns' & -> & Hl & Hspec); [lia|]. simpl.
      exists (set_ip nd a :: ns'). split; [done|]. split; [simpl; lia|].
      intros [|j] nd' Hj; simpl in *.
      * injection Hj as <-. rewrite Hip. exists a.
        rewrite rank_0, Nat.add_0_r. done.
      * specialize (Hspec j nd' Hj). rewrite rank_S_None by done.
        replace (i + S (rank ns j)) with (S i + rank ns j) by lia. done.
Qed.

Lemma assign_hosts_fail hosts ns : ∀ i,
  i ≤ length hosts →
  length hosts < i + length (unset ns) →
  assign_hosts hosts i ns = Raise IndexError.
Proof.
  induction ns as [|nd ns IH]; intros i Hi Hlen.
  - simpl in Hlen. lia.
  - simpl. destruct (ip nd) as [b|] eqn:Hip.
    + erewrite unset_cons_Some in Hlen by done. by rewrite IH.
    + rewrite unset_cons_None in Hlen by done. simpl in Hlen.
      destruct (hosts !! i) as [a|] eqn:Hh; [|done].
      apply lookup_lt_Some in Hh. rewrite IH; [done|lia|lia].
Qed.

Lemma NoDup_omap_lookup {A B} (f : A → option B) (l : list A) j k x y b :
  NoDup (omap f l) → l !! j = Some x → l !! k = Some y →
  f x = Some b → f y = Some b → j = k.
Proof.
  revert j k. induction l as [|z l IH]; intros j k Hnd Hj Hk Hx Hy.
  - by rewrite lookup_nil in Hj.
  - simpl in Hnd. destruct j as [|j], k as [|k]; simpl in *.
    + done.
    + injection Hj as ->. rewrite Hx in Hnd. apply NoDup_cons in Hnd as [Hn _].
      exfalso. apply Hn. apply list_elem_of_omap. exists y. split; [|done].
      by eapply list_elem_of_lookup_2.
    + injection Hk as ->. rewrite Hy in Hnd. apply NoDup_cons in Hnd as [Hn _].
      exfalso. apply Hn. apply list_elem_of_omap. exists x. split; [|done].
      by eapply list_elem_of_lookup_2.
    + f_equal. apply IH; try done.
      destruct (f z); [by apply NoDup_cons in Hnd as [_ ?]|done].
Qed.

Lemma rank_lt ns : ∀ j k nd,
  j < k → ns !! j = Some nd → ip nd = None → rank ns j < rank ns k.
Proof.
  induction ns as [|x ns IH]; intros j k nd Hjk Hj Hip.
  - by rewrite lookup_nil in Hj.
  - destruct k as [|k]; [lia|]. destruct j as [|j]; simpl in Hj.
    + injection Hj as ->. rewrite rank_0, rank_S_None by done. lia.
    + destruct (ip x) as [b|] eqn:Hx.
      * erewrite !rank_S_Some by done. eapply IH; [lia|done..].
      * rewrite !rank_S_None by done.
        apply ->Nat.succ_lt_mono. eapply IH; [lia|done..].
Qed.

Lemma rank_inj ns j k ndj ndk :
  ns !! j = Some ndj → ip ndj = None →
  ns !! k = Some ndk → ip ndk = None →
  rank ns j = rank ns k → j = k.
Proof.
  intros Hj Hij Hk Hik Hr.
  destruct (Nat.lt_trichotomy j k) as [Hlt|[->|Hlt]]; [|done|].
  - pose proof (rank_lt ns j k ndj Hlt Hj Hij). lia.
  - pose proof (rank_lt ns k j ndk Hlt Hk Hik). lia.
Qed.

Lemma explicit_fmap ns : explicit ns = omap id (ip <$> ns).
Proof.
  unfold explicit. induction ns as [|x ns IH]; [done|].
  cbn. destruct (ip x); cbn; by rewrite IH.
Qed.

Lemma unset_length_fmap ns1 ns2 :
  ip <$> ns1 = ip <$> ns2 → length (unset ns1) = length (unset ns2).
Proof.
  revert ns2. induction ns1 as [|x ns1 IH]; intros [|y ns2] Heq; try done.
  injection Heq as Hxy Heq. specialize (IH _ Heq).
  destruct (ip x) as [b|] eqn:Hx.
  - erewrite !unset_cons_Some by done. done.
  - rewrite !unset_cons_None by done. simpl. by rewrite IH.
Qed.

Lemma assign_hosts_ips hosts ns1 : ∀ ns2 i r1,
  ip <$> ns1 = ip <$> ns2 →
  assign_hosts hosts i ns1 = Ok r1 →
  ∃ r2, assign_hosts hosts i ns2 = Ok r2 ∧ ip <$> r2 = ip <$> r1.
Proof.
  induction ns1 as [|x ns1 IH]; intros [|y ns2] i r1 Heq Hr; try done.
  - injection Hr as <-. by exists [].
  - injection Heq as Hxy Heq. simpl in *. rewrite <-Hxy.
    destruct (ip x) as [b|] eqn:Hx.
    + destruct (assign_hosts hosts i ns1) as [r|] eqn:Ha; [|done].
      injection Hr as <-. destruct (IH _ _ _ Heq Ha) as (r2 & -> & Hr2).
      exists (y :: r2). split; [done|]. rewrite !fmap_cons, Hr2. congruence.
    + destruct (hosts !! i) as [a|]; [|done].
      destruct (assign_hosts hosts (S i) ns1) as [r|] eqn:Ha; [|done].
      injection Hr as <-. destruct (IH _ _ _ Heq Ha) as (r2 & -> & Hr2).
      exists (set_ip y a :: r2). split; [done|]. by rewrite !fmap_cons, Hr2.
Qed.

Lemma pool_fmap net ns1 ns2 :
  ip <$> ns1 = ip <$> ns2 → pool net ns1 = pool net ns2.
Proof.
  intros Heq. apply set_eq. intros a.
  by rewrite !elem_of_pool, !explicit_fmap, Heq.
Qed.

Lemma model_post_init_unfold nw net :
  network nw = Ok net →
  model_post_init nw =
    bindR (assign_hosts (sorted (pool net (nodes nw))) 0 (nodes nw)) (λ ns,
      Ok {| cert_authority := strip_spaces (cert_authority nw);
            net_ip := net_ip nw; nodes := ns; cidr := cidr nw |}).
Proof. intros H. unfold model_post_init. by rewrite H. Qed.

(** C1, as amended: when the hosts of the block that no node holds
    explicitly are at least as many as the nodes lacking an address,
    construction succeeds; nodes with an explicit address keep it; the node
    lacking an address that is the k-th such node in declared order (k from
    0) receives the host address of the block, not explicitly held, that has
    exactly k such addresses below it; an assigned address is the address of
    no other node; when the explicit addresses are pairwise distinct, so are
    all addresses of the network; and the assignment depends only on the
    block and on the sequence of explicit addresses. *)
Theorem allocation_lowest_free (nw : NebulaNetwork) (net : ipaddress.IPv4Network) :
  network nw = Ok net →
  length (unset (nodes nw)) ≤ size (pool net (nodes nw)) →
  ∃ nw', model_post_init nw = Ok nw' ∧
    length (nodes nw') = length (nodes nw) ∧
    (∀ j nd, nodes nw !! j = Some nd →
       match ip nd with
       | Some _ => nodes nw' !! j = Some nd
       | None => (∃ a, nodes nw' !! j = Some (set_ip nd a) ∧
                       a ∈ ipaddress.hosts net ∧ (a ∉ explicit (nodes nw)) ∧
                       below (pool net (nodes nw)) a = rank (nodes nw) j)
       end) ∧
    (∀ j k nd ndj ndk, j ≠ k →
       nodes nw !! j = Some nd → ip nd = None →
       nodes nw' !! j = Some ndj → nodes nw' !! k = Some ndk →
       ip ndj ≠ ip ndk) ∧
    (NoDup (explicit (nodes nw)) → NoDup (ip <$> nodes nw')) ∧
    (∀ nw2, network nw2 = Ok net → ip <$> nodes nw2 = ip <$> nodes nw →
       ∃ nw2', model_post_init nw2 = Ok nw2' ∧
               ip <$> nodes nw2' = ip <$> nodes nw').
Proof.
  intros Hnet Hcap.
  set (hs := sorted (pool net (nodes nw))).
  destruct (assign_hosts_ok hs (nodes nw) 0) as (ns' & Has & Hlen & Hspec).
  { unfold hs. rewrite length_sorted. simpl. lia. }
  exists {| cert_authority := strip_spaces (cert_authority nw);
            net_ip := net_ip nw; nodes := ns'; cidr := cidr nw |}.
  assert (∀ j nd, nodes nw !! j = Some nd →
       match ip nd with
       | Some _ => ns' !! j = Some nd
       | None => (∃ a, ns' !! j = Some (set_ip nd a) ∧
                       a ∈ ipaddress.hosts net ∧ (a ∉ explicit (nodes nw)) ∧
                       below (pool net (nodes nw)) a = rank (nodes nw) j)
       end) as Hnodes.
  { intros j nd Hj. specialize (Hspec j nd Hj).
    destruct (ip nd); [done|]. destruct Hspec as (a & Ha & Hj').
    apply sorted_lookup_below in Ha as [Hin Hb].
    apply elem_of_pool in Hin as [??]. by exists a. }
  assert (∀ j k nd ndj ndk, j ≠ k →
       nodes nw !! j = Some nd → ip nd = None →
       ns' !! j = Some ndj → ns' !! k = Some ndk →
       ip ndj ≠ ip ndk) as Hfresh.
  { intros j k nd ndj ndk Hjk Hj Hip Hj' Hk'.
    pose proof (Hnodes j nd Hj) as Hsj. rewrite Hip in Hsj.
    destruct Hsj as (a & Hja & _ & Hexp & Hbel).
    rewrite Hj' in Hja. injection Hja as ->. simpl.
    assert (is_Some (nodes nw !! k)) as [nk Hk].
    { apply lookup_lt_is_Some. rewrite <-Hlen. by eapply lookup_lt_Some. }
    pose proof (Hnodes k nk Hk) as Hsk.
    destruct (ip nk) as [b|] eqn:Hipk.
    - rewrite Hk' in Hsk. injection Hsk as ->. rewrite Hipk.
      intros [= ->]. apply Hexp. unfold explicit.
      apply list_elem_of_omap. exists nk. split; [|done].
      by eapply list_elem_of_lookup_2.
    - destruct Hsk as (b & Hkb & _ & _ & Hbel').
      rewrite Hk' in Hkb. injection Hkb as ->. simpl.
      intros [= ->]. apply Hjk.
      eapply (rank_inj (nodes nw)); [done..|]. by rewrite <-Hbel, <-Hbel'. }
  split; [|split; [done|split; [done|split; [done|split]]]].
  - rewrite (model_post_init_unfold nw net Hnet). fold hs. by rewrite Has.
  - simpl. intros Hnd. apply NoDup_alt. intros j k x Hj Hk.
    rewrite list_lookup_fmap in Hj, Hk.
    destruct (ns' !! j) as [ndj|] eqn:Hj'; [|done].
    destruct (ns' !! k) as [ndk|] eqn:Hk'; [|done].
    simpl in Hj, Hk. injection Hj as Hj. injection Hk as Hk.
    destruct (decide (j = k)) as [|Hjk]; [done|exfalso].
    assert (is_Some (nodes nw !! j)) as [nj Hnj].
    { apply lookup_lt_is_Some. rewrite <-Hlen. by eapply lookup_lt_Some. }
    assert (is_Some (nodes nw !! k)) as [nk Hnk].
    { apply lookup_lt_is_Some. rewrite <-Hlen. by eapply lookup_lt_Some. }
    destruct (ip nj) as [a|] eqn:Hipj.
    2:{ eapply (Hfresh j k); [done..|]. congruence. }
    destruct (ip nk) as [b|] eqn:Hipk.
    2:{ eapply (Hfresh k j); [done..|]. congruence. }
    pose proof (Hnodes j nj Hnj) as Hsj. rewrite Hipj, Hj' in Hsj.
    pose proof (Hnodes k nk Hnk) as Hsk. rewrite Hipk, Hk' in Hsk.
    injection Hsj as ->. injection Hsk as ->.
    apply Hjk.
    apply (NoDup_omap_lookup ip (nodes nw) j k nj nk a Hnd Hnj Hnk Hipj).
    congruence.
  - simpl. intros nw2 Hnet2 Hips.
    rewrite (model_post_init_unfold nw2 net Hnet2).
    rewrite (pool_fmap net _ _ Hips). fold hs.
    destruct (assign_hosts_ips hs (nodes nw) (nodes nw2) 0 ns') as (r2 & -> & Hr2);
      [done..|].
    simpl. eauto.
Qed.

Lemma allocation_lowest_free_witness :
  ∃ nw', model_post_init example_network = Ok nw' ∧
         nodes nw' !! 2 = Some (set_ip node_C (ip4 10 100 100 1)).
Proof.
  assert (network example_network = Ok example_block) as Hnet
    by (vm_compute; reflexivity).
  assert (length (unset (nodes example_network))
          ≤ size (pool example_block (nodes example_network))) as Hcap
    by (vm_compute; lia).
  destruct (allocation_lowest_free example_network example_block Hnet Hcap)
    as (nw' & Hinit & _).
  exists nw'. split; [exact Hinit|].
  assert (model_post_init example_network
          = Ok {| cert_authority := "TestCA"; net_ip := ip4 10 100 100 0;
                  nodes := [node_A; node_B; set_ip node_C (ip4 10 100 100 1)];
                  cidr := 24 |}) as Hrun by (vm_compute; reflexivity).
  rewrite Hrun in Hinit. injection Hinit as <-. reflexivity.
Defined.

(** C1 as stated fails twice.  The hosts of the block may be as many as the
    nodes lacking an address while none of them is free: in 10.0.0.0/30 with
    .1 and .2 held explicitly, the third node gets no address and
    construction raises.  And explicit addresses are not checked: two nodes
    declared with 10.100.100.5 both keep it. *)
Lemma allocation_counterexample :
  (network full_network = Ok full_block ∧
   length (unset (nodes full_network)) ≤ length (ipaddress.hosts full_block) ∧
   model_post_init full_network = Raise IndexError) ∧
  (network twin_network = Ok example_block ∧
   length (unset (nodes twin_network)) ≤ length (ipaddress.hosts example_block) ∧
   ∃ nw', model_post_init twin_network = Ok nw' ∧ ¬ NoDup (ip <$> nodes nw')).
Proof.
  split.
  - split; [vm_compute; reflexivity|]. split; [vm_compute; lia|].
    vm_compute. reflexivity.
  - split; [vm_compute; reflexivity|]. split; [vm_compute; lia|].
    eexists. split; [vm_compute; reflexivity|].
    simpl. intros Hnd. apply NoDup_cons in Hnd as [Hn _].
    apply Hn. left.
Qed.

Lemma assign_hosts_all_set hosts ns : ∀ i ns',
  assign_hosts hosts i ns = Ok ns' → Forall (λ nd, is_Some (ip nd)) ns'.
Proof.
  induction ns as [|nd ns IH]; intros i ns' Hr; simpl in Hr.
  - injection Hr as <-. constructor.
  - destruct (ip nd) as [b|] eqn:Hip.
    + destruct (assign_hosts hosts i ns) as [r|] eqn:Ha; [|done].
      injection Hr as <-. constructor; [by rewrite Hip|by eapply IH].
    + destruct (hosts !! i) as [a|]; [|done].
      destruct (assign_hosts hosts (S i) ns) as [r|] eqn:Ha; [|done].
      injection Hr as <-. constructor; [done|by eapply IH].
Qed.

(** C2, as amended: with N the number of hosts of the block that no node
    holds explicitly and M the number of nodes lacking an address, if M > N
    construction fails with the IndexError of indexing the sorted candidates
    out of range (there is no dedicated capacity error), and if M <= N it
    succeeds and every node of the network has an address. *)
Theorem allocation_capacity (nw : NebulaNetwork) (net : ipaddress.IPv4Network) :
  network nw = Ok net →
  (size (pool net (nodes nw)) < length (unset (nodes nw)) →
     model_post_init nw = Raise IndexError) ∧
  (length (unset (nodes nw)) ≤ size (pool net (nodes nw)) →
     ∃ nw', model_post_init nw = Ok nw' ∧
            length (nodes nw') = length (nodes nw) ∧
            Forall (λ nd, is_Some (ip nd)) (nodes nw')).
Proof.
  intros Hnet. rewrite (model_post_init_unfold nw net Hnet). split.
  - intros Hlt. rewrite assign_hosts_fail; [done|lia|].
    rewrite length_sorted. simpl. lia.
  - intros Hle.
    destruct (assign_hosts_ok (sorted (pool net (nodes nw))) (nodes nw) 0)
      as (ns' & Has & Hlen & _).
    { rewrite length_sorted. simpl. lia. }
    rewrite Has. simpl. eexists. split; [done|]. simpl. split; [done|].
    by eapply assign_hosts_all_set.
Qed.

Lemma allocation_capacity_witness :
  model_post_init full_network = Raise IndexError ∧
  ∃ nw', model_post_init example_network = Ok nw' ∧
         length (nodes nw') = 3 ∧
         Forall (λ nd, is_Some (ip nd)) (nodes nw').
Proof.
  split.
  - apply (allocation_capacity full_network full_block);
      [vm_compute; reflexivity|vm_compute; lia].
  - apply (allocation_capacity example_network example_block);
      [vm_compute; reflexivity|vm_compute; lia].
Defined.

(** C2 as stated names a dedicated capacity error; the failure is the
    IndexError of [hosts[i]]: here no host is free (N = 0) and one node
    lacks an address (M = 1). *)
Lemma capacity_error_counterexample :
  size (pool full_block (nodes full_network)) = 0 ∧
  length (unset (nodes full_network)) = 1 ∧
  model_post_init full_network = Raise IndexError.
Proof. repeat split; vm_compute; reflexivity. Qed.

Arguments artifact_files : simpl never.

(** ** Certificate artifact sets *)

Section signing.
Variable abspath : string → string.
Variable docker : RunArgs → gset string → gset string * option PyExc.

Lemma world_eq (w1 w2 : World) :
  paths w1 = paths w2 → runs w1 = runs w2 → w1 = w2.
Proof. destruct w1, w2; simpl; by intros -> ->. Qed.

Lemma outputs_pure prefix mode w :
  outputs prefix mode false false w =
    (w, Ok match mode with
           | ExistFalse => Files (artifact_files prefix)
           | ExistAll =>
               Flag (forallb (λ f, bool_decide (f ∈ paths w)) (artifact_files prefix))
           | ExistAny =>
               Flag (existsb (λ f, bool_decide (f ∈ paths w)) (artifact_files prefix))
           | ExistTrue => NoOutputs
           end).
Proof. by destruct mode. Qed.

Lemma unlink_if_exists f w :
  (e <- os_path_exists f ;; if e then os_unlink f else ret tt) w
  = (remove_files [f] w, Ok tt).
Proof.
  unfold bind, os_path_exists, os_unlink, ret, remove_files. simpl.
  case_bool_decide; f_equal; apply world_eq; simpl; [set_solver|done|set_solver|done].
Qed.

Lemma remove_files_app l1 l2 w :
  remove_files l2 (remove_files l1 w) = remove_files (l1 ++ l2) w.
Proof. apply world_eq; simpl; [set_solver|done]. Qed.

Lemma outputs_loop_rm prefix exts : ∀ fs w,
  outputs_loop prefix exts false true fs w =
    (remove_files ((λ ext, prefix +:+ "." +:+ ext) <$> exts) w,
     Ok (fs ++ ((λ ext, prefix +:+ "." +:+ ext) <$> exts))).
Proof.
  induction exts as [|ext exts IH]; intros fs w.
  - simpl. unfold ret. f_equal; [|by rewrite app_nil_r].
    apply world_eq; simpl; [set_solver|done].
  - simpl. unfold bind at 1. unfold ret at 1. unfold bind at 1.
    rewrite unlink_if_exists, IH, remove_files_app, <-app_assoc. done.
Qed.

Lemma outputs_rm prefix w :
  outputs prefix ExistFalse false true w =
    (remove_files (artifact_files prefix) w, Ok (Files (artifact_files prefix))).
Proof. unfold outputs, bind. by rewrite outputs_loop_rm. Qed.

Lemma make_temp_dir_eq nw w :
  make_temp_dir abspath nw w = (ensure_dir abspath nw w, Ok (temp_dir abspath nw)).
Proof.
  unfold make_temp_dir, bind, os_path_exists, os_mkdir, ret, ensure_dir. simpl.
  case_bool_decide; simpl; f_equal; apply world_eq; simpl; [set_solver|done..].
Qed.

Lemma ensure_dir_idemp nw w :
  ensure_dir abspath nw (ensure_dir abspath nw w) = ensure_dir abspath nw w.
Proof. apply world_eq; simpl; [set_solver|done]. Qed.

Lemma ensure_dir_id nw w :
  temp_dir abspath nw ∈ paths w → ensure_dir abspath nw w = w.
Proof. intros. apply world_eq; simpl; [set_solver|done]. Qed.

Lemma network_cert_eq nw ow w :
  network_cert abspath docker nw ow w =
    let w1 := ensure_dir abspath nw w in
    let w2 := if ow then remove_files (artifact_files (ca_cert_prefix abspath nw)) w1 else w1 in
    match network nw with
    | Raise e => (w2, Raise e)
    | Ok net =>
        match artifact_state (ca_cert_prefix abspath nw) (paths w2) with
        | Complete => (w2, Ok tt)
        | Partial => (w2, Raise (missing_ca abspath nw))
        | Absent => containers_run docker (ca_run_args abspath nw net) w2
        end
    end.
Proof.
  unfold network_cert. unfold bind at 1. rewrite make_temp_dir_eq.
  unfold bind at 1.
  set (w1 := ensure_dir abspath nw w).
  assert ((if ow then ca_outputs abspath nw ExistFalse false true >>> ret tt else ret tt) w1
          = (if ow
             then remove_files (artifact_files (ca_cert_prefix abspath nw)) w1
             else w1, Ok tt)) as ->.
  { destruct ow; [|done]. unfold bind, ca_outputs. by rewrite outputs_rm. }
  set (w2 := if ow then _ else _). simpl.
  unfold bind at 1, lift. destruct (network nw) as [net|e]; [|done].
  unfold bind at 1, ca_outputs. rewrite outputs_pure.
  unfold artifact_state. cbn [truthy].
  destruct (forallb _ _) eqn:Hall; cbn [negb]; [done|].
  unfold bind at 1. unfold bind at 1. rewrite outputs_pure. cbn [truthy].
  destruct (existsb _ _) eqn:Hany.
  - unfold bind at 1. by rewrite outputs_pure.
  - unfold ret at 1. unfold try_except, raise.
    by destruct (containers_run _ _ _) as [w3 [[]|e]].
Qed.

Lemma sign_node_eq nw node ow w :
  sign_node abspath docker nw node ow w =
    match network_cert abspath docker nw false (ensure_dir abspath nw w) with
    | (w2, Raise e) => (w2, Raise e)
    | (w2, Ok _) =>
        let w3 := if ow then remove_files (artifact_files (node_prefix abspath nw node)) w2
                  else w2 in
        match artifact_state (node_prefix abspath nw node) (paths w3) with
        | Complete => (w3, Ok tt)
        | Partial => (w3, Raise (missing_node abspath nw node))
        | Absent => containers_run docker (node_args abspath nw node) w3
        end
    end.
Proof.
  unfold sign_node. unfold bind at 1. rewrite make_temp_dir_eq.
  unfold bind at 1.
  destruct (network_cert _ _ _ _ _) as [w2 [[]|e]]; [|done].
  unfold bind at 1.
  pose (w3 := if ow then remove_files (artifact_files (node_prefix abspath nw node)) w2
              else w2).
  assert ((if ow then node_outputs abspath nw node ExistFalse false true >>> ret tt else ret tt) w2
          = (w3, Ok tt)) as ->.
  { unfold w3. destruct ow; [|done]. unfold bind, node_outputs. by rewrite outputs_rm. }
  unfold bind at 1, node_outputs. rewrite outputs_pure.
  unfold bind at 1, lift. unfold artifact_files at 1. cbn [unpack3].
  unfold bind at 1. rewrite outputs_pure.
  unfold artifact_state. cbn [truthy].
  destruct (forallb _ _) eqn:Hall; cbn [negb]; [done|].
  unfold bind at 1. unfold bind at 1. rewrite outputs_pure. cbn [truthy].
  destruct (existsb _ _) eqn:Hany.
  - done.
  - unfold ret at 1. unfold try_except, raise.
    by destruct (containers_run _ _ _) as [w4 [[]|e]].
Qed.


Lemma string_length_app (s t : string) :
  String.length (s +:+ t) = String.length s + String.length t.
Proof. induction s as [|c s IH]; simpl; [done|by rewrite IH]. Qed.

Lemma string_app_assoc (s t u : string) : s +:+ t +:+ u = (s +:+ t) +:+ u.
Proof.
  induction s as [|c s IH]; [done|].
  change (String c (s +:+ t +:+ u) = String c ((s +:+ t) +:+ u)).
  by rewrite IH.
Qed.

Lemma string_app_ne (s t : string) : t ≠ EmptyString → s ≠ s +:+ t.
Proof.
  intros Ht Heq. apply (f_equal String.length) in Heq.
  rewrite string_length_app in Heq. destruct t; [done|simpl in Heq; lia].
Qed.

Lemma temp_dir_not_artifact nw rest :
  temp_dir abspath nw ∉ artifact_files (temp_dir abspath nw +:+ "/" +:+ rest).
Proof.
  unfold artifact_files. rewrite !not_elem_of_cons. 
  repeat split; try apply not_elem_of_nil.
  all: rewrite <-string_app_assoc; by apply string_app_ne.
Qed.

Lemma artifact_state_ext prefix (p q : gset string) :
  (∀ f, f ∈ artifact_files prefix → f ∈ p ↔ f ∈ q) →
  artifact_state prefix p = artifact_state prefix q.
Proof.
  intros H. unfold artifact_state, artifact_files in *. simpl.
  rewrite (bool_decide_ext (prefix +:+ "." +:+ "crt" ∈ p)
                           (prefix +:+ "." +:+ "crt" ∈ q)) by (apply H; set_solver).
  rewrite (bool_decide_ext (prefix +:+ "." +:+ "key" ∈ p)
                           (prefix +:+ "." +:+ "key" ∈ q)) by (apply H; set_solver).
  rewrite (bool_decide_ext (prefix +:+ "." +:+ "png" ∈ p)
                           (prefix +:+ "." +:+ "png" ∈ q)) by (apply H; set_solver).
  done.
Qed.

Lemma artifact_state_ensure_dir nw rest w :
  artifact_state (temp_dir abspath nw +:+ "/" +:+ rest)
                 (paths (ensure_dir abspath nw w))
  = artifact_state (temp_dir abspath nw +:+ "/" +:+ rest) (paths w).
Proof.
  pose proof (temp_dir_not_artifact nw rest) as Hn.
  apply artifact_state_ext. intros f Hf. simpl. set_solver.
Qed.

Lemma ca_state_ensure_dir nw w :
  artifact_state (ca_cert_prefix abspath nw) (paths (ensure_dir abspath nw w))
  = artifact_state (ca_cert_prefix abspath nw) (paths w).
Proof. apply artifact_state_ensure_dir. Qed.

Lemma node_state_ensure_dir nw node w :
  artifact_state (node_prefix abspath nw node) (paths (ensure_dir abspath nw w))
  = artifact_state (node_prefix abspath nw node) (paths w).
Proof. apply artifact_state_ensure_dir. Qed.

Lemma artifact_state_Complete prefix p :
  artifact_state prefix p = Complete ↔ Forall (λ f, f ∈ p) (artifact_files prefix).
Proof.
  unfold artifact_state. rewrite Forall_forall.
  destruct (forallb _ _) eqn:Hall.
  - split; [|done]. intros _ f Hf.
    rewrite forallb_forall in Hall. apply list_elem_of_In, Hall in Hf.
    by apply bool_decide_eq_true in Hf.
  - split; [by destruct (existsb _ _)|]. intros Hf. exfalso.
    apply not_true_iff_false in Hall. apply Hall.
    apply forallb_forall. intros f Hin. apply bool_decide_eq_true, Hf.
    by apply list_elem_of_In.
Qed.

Lemma artifact_state_Absent prefix p :
  artifact_state prefix p = Absent ↔ Forall (λ f, f ∉ p) (artifact_files prefix).
Proof.
  unfold artifact_state, artifact_files. rewrite !Forall_cons. simpl.
  repeat case_bool_decide; simpl; split; try done; naive_solver.
Qed.

Lemma artifact_state_removed prefix w :
  artifact_state prefix (paths (remove_files (artifact_files prefix) w)) = Absent.
Proof.
  apply artifact_state_Absent, Forall_forall. intros f Hf. simpl.
  set_solver.
Qed.

Lemma remove_ensure_dir nw rest w :
  remove_files (artifact_files (temp_dir abspath nw +:+ "/" +:+ rest))
               (ensure_dir abspath nw w)
  = ensure_dir abspath nw
      (remove_files (artifact_files (temp_dir abspath nw +:+ "/" +:+ rest)) w).
Proof.
  pose proof (temp_dir_not_artifact nw rest) as Hn.
  apply world_eq; simpl; [|done]. set_solver.
Qed.

(** C3, as amended: a signing request without the overwrite flag on a
    Partial set raises ValueError, and the message lists all three output
    paths of the set, whichever of them is missing.  For the authority, no
    signing run is made and no file is created or deleted.  For a node, the
    authority request comes first; once it has passed, no signing run is
    made for the node and nothing changes; when the authority set is
    Complete the whole request changes no file and makes no run.  With the
    overwrite flag an authority request deletes whatever files of the set
    exist and makes the signing run, from any state. *)
Theorem partial_set_raises (nw : NebulaNetwork) (net : ipaddress.IPv4Network)
    (node : NebulaNode) (w : World) :
  network nw = Ok net →
  (artifact_state (ca_cert_prefix abspath nw) (paths w) = Partial →
     network_cert abspath docker nw false w
     = (ensure_dir abspath nw w, Raise (missing_ca abspath nw))) ∧
  (∀ w2, network_cert abspath docker nw false (ensure_dir abspath nw w)
           = (w2, Ok tt) →
     artifact_state (node_prefix abspath nw node) (paths w2) = Partial →
     sign_node abspath docker nw node false w
     = (w2, Raise (missing_node abspath nw node))) ∧
  (artifact_state (ca_cert_prefix abspath nw) (paths w) = Complete →
     artifact_state (node_prefix abspath nw node) (paths w) = Partial →
     sign_node abspath docker nw node false w
     = (ensure_dir abspath nw w, Raise (missing_node abspath nw node))) ∧
  network_cert abspath docker nw true w
  = containers_run docker (ca_run_args abspath nw net)
      (remove_files (artifact_files (ca_cert_prefix abspath nw))
                    (ensure_dir abspath nw w)) ∧
  runs (ensure_dir abspath nw w) = runs w ∧
  paths (ensure_dir abspath nw w) = paths w ∪ {[temp_dir abspath nw]} ∧
  (temp_dir abspath nw ∈ paths w → ensure_dir abspath nw w = w).
Proof.
  intros Hnet.
  split; [|split; [|split; [|split; [|split; [done|split; [done|]]]]]].
  - intros Hp. rewrite network_cert_eq, Hnet. cbn zeta.
    by rewrite ca_state_ensure_dir, Hp.
  - intros w2 Hca Hp. rewrite sign_node_eq, Hca. cbn zeta. by rewrite Hp.
  - intros Hc Hp. rewrite sign_node_eq, network_cert_eq, Hnet. cbn zeta.
    rewrite ensure_dir_idemp, ca_state_ensure_dir, Hc.
    by rewrite node_state_ensure_dir, Hp.
  - rewrite network_cert_eq, Hnet. cbn zeta. by rewrite artifact_state_removed.
  - apply ensure_dir_id.
Qed.

(** C4, as amended: on a Complete authority set a request without the
    overwrite flag makes no signing run and leaves every file as it is;
    with the flag the three files are deleted and the request goes on as
    from Absent, where it makes the signing run.  A node request first makes
    the authority request: with the authority set Complete, it is a no-op
    on a Complete node set, and with the overwrite flag it deletes the
    node's three files and makes the node's signing run, as it does from
    Absent.  When a successful run leaves its three files in place, a
    request that has succeeded leaves the set Complete, and the same
    request made again without the flag changes nothing. *)
Theorem complete_set_noop (nw : NebulaNetwork) (net : ipaddress.IPv4Network)
    (node : NebulaNode) (w : World) :
  network nw = Ok net →
  let ca := ca_cert_prefix abspath nw in
  let nd := node_prefix abspath nw node in
  (artifact_state ca (paths w) = Complete →
     network_cert abspath docker nw false w = (ensure_dir abspath nw w, Ok tt)) ∧
  (network_cert abspath docker nw true w
     = network_cert abspath docker nw false (remove_files (artifact_files ca) w) ∧
   artifact_state ca (paths (remove_files (artifact_files ca) w)) = Absent) ∧
  (artifact_state ca (paths w) = Absent →
     network_cert abspath docker nw false w
     = containers_run docker (ca_run_args abspath nw net)
                      (ensure_dir abspath nw w)) ∧
  (artifact_state ca (paths w) = Complete →
     (artifact_state nd (paths w) = Complete →
        sign_node abspath docker nw node false w
        = (ensure_dir abspath nw w, Ok tt)) ∧
     (artifact_state nd (paths w) = Absent →
        sign_node abspath docker nw node false w
        = containers_run docker (node_args abspath nw node)
                         (ensure_dir abspath nw w)) ∧
     sign_node abspath docker nw node true w
     = containers_run docker (node_args abspath nw node)
         (remove_files (artifact_files nd) (ensure_dir abspath nw w))) ∧
  (signing_contract docker (ca_run_args abspath nw net) (artifact_files ca) →
   signing_contract docker (node_args abspath nw node) (artifact_files nd) →
   (∀ ow w1, network_cert abspath docker nw ow w = (w1, Ok tt) →
      artifact_state ca (paths w1) = Complete ∧
      network_cert abspath docker nw false w1
      = (ensure_dir abspath nw w1, Ok tt)) ∧
   (∀ w1, sign_node abspath docker nw node false w = (w1, Ok tt) →
      artifact_state ca (paths w1) = Complete ∧
      artifact_state nd (paths w1) = Complete ∧
      sign_node abspath docker nw node false w1
      = (ensure_dir abspath nw w1, Ok tt))) ∧
  runs (ensure_dir abspath nw w) = runs w ∧
  paths (ensure_dir abspath nw w) = paths w ∪ {[temp_dir abspath nw]} ∧
  (temp_dir abspath nw ∈ paths w → ensure_dir abspath nw w = w).
Proof.
  intros Hnet ca nd. subst ca nd.
  assert (∀ w0, artifact_state (ca_cert_prefix abspath nw) (paths w0) = Complete →
            network_cert abspath docker nw false w0
            = (ensure_dir abspath nw w0, Ok tt)) as Hca_noop.
  { intros w0 Hc. rewrite network_cert_eq, Hnet. cbn zeta.
    by rewrite ca_state_ensure_dir, Hc. }
  assert (∀ w0, artifact_state (ca_cert_prefix abspath nw) (paths w0) = Complete →
            artifact_state (node_prefix abspath nw node) (paths w0) = Complete →
            sign_node abspath docker nw node false w0
            = (ensure_dir abspath nw w0, Ok tt)) as Hnd_noop.
  { intros w0 Hc Hn. rewrite sign_node_eq, Hca_noop.
    2:{ by rewrite ca_state_ensure_dir. }
    cbn zeta. rewrite ensure_dir_idemp.
    by rewrite node_state_ensure_dir, Hn. }
  split; [by apply Hca_noop|].
  split.
  { split; [|apply artifact_state_removed].
    rewrite !network_cert_eq, Hnet. cbn zeta.
    unfold ca_cert_prefix. by rewrite remove_ensure_dir. }
  split.
  { intros Ha. rewrite network_cert_eq, Hnet. cbn zeta.
    by rewrite ca_state_ensure_dir, Ha. }
  split.
  { intros Hc. split; [by apply Hnd_noop|]. split.
    - intros Ha. rewrite sign_node_eq, Hca_noop.
      2:{ by rewrite ca_state_ensure_dir. }
      cbn zeta. rewrite ensure_dir_idemp.
      by rewrite node_state_ensure_dir, Ha.
    - rewrite sign_node_eq, Hca_noop.
      2:{ by rewrite ca_state_ensure_dir. }
      cbn zeta. rewrite ensure_dir_idemp.
      by rewrite artifact_state_removed. }
  split; [|split; [done|split; [done|apply ensure_dir_id]]].
  intros Hcc Hcn.
  assert (∀ ow w0 w1, network_cert abspath docker nw ow w0 = (w1, Ok tt) →
            artifact_state (ca_cert_prefix abspath nw) (paths w1) = Complete ∧
            paths w0 ∖ (if ow
                        then list_to_set (artifact_files (ca_cert_prefix abspath nw))
                        else ∅) ⊆ paths w1) as Hca_done.
  { intros ow w0 w1. rewrite network_cert_eq, Hnet. cbn zeta.
    destruct (artifact_state (ca_cert_prefix abspath nw) _) eqn:Hs.
    - unfold containers_run.
      destruct (docker _ _) as [p' [e|]] eqn:Hd; [done|].
      intros [= <-]. simpl. apply Hcc in Hd as [Hsub Hall].
      split; [by apply artifact_state_Complete|].
      etrans; [|exact Hsub]. destruct ow; simpl; set_solver.
    - done.
    - intros [= <-]. split; [done|]. destruct ow; simpl; set_solver. }
  split.
  - intros ow w1 H1. destruct (Hca_done ow w w1 H1) as [Hc _].
    split; [done|]. by apply Hca_noop.
  - intros w1. rewrite sign_node_eq.
    destruct (network_cert _ _ _ _ _) as [w2 [[]|e]] eqn:Hc2; [|done].
    apply Hca_done in Hc2 as [Hc2 _]. cbn zeta.
    destruct (artifact_state (node_prefix abspath nw node) (paths w2)) eqn:Hs.
    + unfold containers_run.
      destruct (docker _ _) as [p' [e|]] eqn:Hd; [done|].
      intros [= <-]. simpl. apply Hcn in Hd as [Hsub Hall].
      assert (artifact_state (ca_cert_prefix abspath nw) p' = Complete) as Hc1.
      { apply artifact_state_Complete. apply artifact_state_Complete in Hc2.
        eapply Forall_impl; [exact Hc2|]. intros f Hf. simpl. set_solver. }
      assert (artifact_state (node_prefix abspath nw node) p' = Complete) as Hn1
        by by apply artifact_state_Complete.
      split; [done|]. split; [done|]. by apply Hnd_noop.
    + done.
    + intros [= <-]. split; [done|]. split; [done|]. by apply Hnd_noop.
Qed.

Lemma string_app_inj_r (s1 : string) : ∀ s2 t1 t2 : string,
  String.length t1 = String.length t2 → s1 +:+ t1 = s2 +:+ t2 → s1 = s2.
Proof.
  induction s1 as [|c s1 IH]; intros [|c' s2] t1 t2 Hlen Heq; try done.
  - apply (f_equal String.length) in Heq.
    rewrite !string_length_app in Heq. simpl in Heq. lia.
  - apply (f_equal String.length) in Heq.
    rewrite !string_length_app in Heq. simpl in Heq. lia.
  - change (String c (s1 +:+ t1) = String c' (s2 +:+ t2)) in Heq.
    injection Heq as -> Heq. f_equal. by eapply IH.
Qed.

Lemma artifact_files_disjoint (p1 p2 f : string) :
  p1 ≠ p2 → f ∈ artifact_files p1 → f ∈ artifact_files p2 → False.
Proof.
  intros Hne H1 H2. apply Hne. unfold artifact_files in *.
  rewrite !elem_of_cons, elem_of_nil in H1, H2.
  destruct H1 as [->|[->|[->|[]]]]; destruct H2 as [H2|[H2|[H2|[]]]];
    rewrite !string_app_assoc in H2;
    apply string_app_inj_r in H2; try done;
    by apply (string_app_inj_r _ _ "." ".") in H2.
Qed.

Lemma run_result args w :
  ∃ p' r, containers_run docker args w
          = ({| paths := p'; runs := runs w ++ [(args, paths w)] |}, r) ∧
          docker args (paths w)
          = (p', match r with Ok _ => None | Raise e => Some e end).
Proof.
  unfold containers_run. destruct (docker args (paths w)) as [p' [e|]]; eauto.
Qed.

(** C5, as amended: a node request makes the authority request first.  If
    that raises, the node request raises the same error there and then, and
    no signing run is made for the node.  Otherwise at most one run
    follows, the node's; provided a successful authority run has left its
    three files in place, and the node's files are not the files the
    request deletes from the authority set (no overwrite flag, or a node
    prefix other than the authority's), that run starts with the authority
    set Complete.  The code itself does not look at the authority's files
    again after a run that reports success. *)
Theorem authority_before_node (nw : NebulaNetwork)
    (net : ipaddress.IPv4Network) (node : NebulaNode) (ow : bool)
    (w w2 w' : World) (r2 r : Result unit) :
  network nw = Ok net →
  network_cert abspath docker nw false (ensure_dir abspath nw w) = (w2, r2) →
  sign_node abspath docker nw node ow w = (w', r) →
  let ca := ca_cert_prefix abspath nw in
  let nd := node_prefix abspath nw node in
  (runs w2 = runs w ∨
   runs w2 = runs w ++ [(ca_run_args abspath nw net,
                         paths (ensure_dir abspath nw w))]) ∧
  (∀ e, r2 = Raise e → w' = w2 ∧ r = Raise e) ∧
  (r2 = Ok tt →
     runs w' = runs w2 ∨
     ∃ p, runs w' = runs w2 ++ [(node_args abspath nw node, p)] ∧
          (signing_contract docker (ca_run_args abspath nw net)
                            (artifact_files ca) →
           ow = false ∨ nd ≠ ca →
           artifact_state ca p = Complete)).
Proof.
  intros Hnet Hca Hsign ca nd. subst ca nd.
  rewrite sign_node_eq, Hca in Hsign.
  rewrite network_cert_eq, Hnet in Hca. cbn zeta in Hca.
  rewrite ensure_dir_idemp in Hca.
  split; [|split].
  - destruct (artifact_state _ _).
    + destruct (run_result (ca_run_args abspath nw net)
                           (ensure_dir abspath nw w)) as (p' & r0 & Hrun & _).
      rewrite Hrun in Hca. injection Hca as <- _. by right.
    + injection Hca as <- _. by left.
    + injection Hca as <- _. by left.
  - intros e ->. by injection Hsign as <- <-.
  - intros ->. cbn zeta in Hsign.
    set (w3 := if ow then remove_files _ w2 else w2) in Hsign.
    assert (runs w3 = runs w2) as Hr3 by (unfold w3; by destruct ow).
    destruct (artifact_state (node_prefix abspath nw node) (paths w3)).
    2,3: injection Hsign as <- _; by left.
    destruct (run_result (node_args abspath nw node) w3)
      as (p' & r0 & Hrun & _).
    rewrite Hrun in Hsign. injection Hsign as <- _. right.
    exists (paths w3). simpl. rewrite Hr3. split; [done|].
    intros Hcontract Hdisj.
    assert (artifact_state (ca_cert_prefix abspath nw) (paths w2) = Complete)
      as Hc2.
    { destruct (artifact_state (ca_cert_prefix abspath nw)
                  (paths (ensure_dir abspath nw w))) eqn:Hs.
      - unfold containers_run in Hca.
        destruct (docker _ _) as [p2 [e|]] eqn:Hd; [done|].
        injection Hca as <-. simpl. apply Hcontract in Hd as [_ Hall].
        by apply artifact_state_Complete.
      - done.
      - by injection Hca as <-. }
    rewrite <-Hc2. unfold w3. destruct ow; [|done].
    destruct Hdisj as [|Hne]; [done|].
    apply artifact_state_ext. intros f Hf. unfold remove_files. cbn [paths].
    rewrite elem_of_difference, elem_of_list_to_set.
    split; [tauto|]. intros Hin. split; [done|].
    intros Hnf. by eapply (artifact_files_disjoint _ _ f Hne).
Qed.

End signing.

(** ** Certificate artifact sets: the examples *)

Example built_network_constructed :
  model_post_init example_network = Ok built_network.
Proof. vm_compute. reflexivity. Qed.

Example built_network_block : network built_network = Ok example_block.
Proof. vm_compute. reflexivity. Qed.

Lemma partial_set_raises_witness :
  network_cert abspath_w docker_ok built_network false w_ca_partial
  = (ensure_dir abspath_w built_network w_ca_partial,
     Raise (missing_ca abspath_w built_network)).
Proof.
  destruct (partial_set_raises abspath_w docker_ok built_network example_block
              node_C1 w_ca_partial) as (H & _).
  - vm_compute. reflexivity.
  - apply H. vm_compute. reflexivity.
Defined.

(** C3 as stated fails three ways.  With only the authority key on disk the
    message lists all three paths, the key among them; with the overwrite
    flag the Partial set is deleted and signed again without an error; and a
    request for a Partial node set signs the Absent authority before it
    raises. *)
Lemma partial_set_counterexample :
  (artifact_state ca_w (paths w_ca_partial) = Partial ∧
   "/w/TestCA/TestCA_10.100.100.0_24.key" ∈ paths w_ca_partial ∧
   network_cert abspath_w docker_ok built_network false w_ca_partial
   = (w_ca_partial,
      Raise (ValueError "Missing some of the following files: ['/w/TestCA/TestCA_10.100.100.0_24.crt', '/w/TestCA/TestCA_10.100.100.0_24.key', '/w/TestCA/TestCA_10.100.100.0_24.png']"))) ∧
  (∃ w', network_cert abspath_w docker_ok built_network true w_ca_partial
         = (w', Ok tt) ∧
         length (runs w') = 1 ∧
         artifact_state ca_w (paths w') = Complete) ∧
  (artifact_state (node_prefix abspath_w built_network node_C1)
                  (paths w_node_partial) = Partial ∧
   artifact_state ca_w (paths w_node_partial) = Absent ∧
   ∃ w', sign_node abspath_w docker_ok built_network node_C1 false w_node_partial
         = (w', Raise (missing_node abspath_w built_network node_C1)) ∧
         length (runs w') = 1 ∧
         artifact_state ca_w (paths w') = Complete).
Proof.
  split; [|split].
  - split; [vm_compute; reflexivity|]. split; [by vm_compute|].
    vm_compute. reflexivity.
  - eexists. split; [vm_compute; reflexivity|]. split; vm_compute; reflexivity.
  - split; [vm_compute; reflexivity|]. split; [vm_compute; reflexivity|].
    eexists. split; [vm_compute; reflexivity|]. split; vm_compute; reflexivity.
Qed.

Lemma docker_ok_contract_ca :
  signing_contract docker_ok (ca_run_args abspath_w built_network example_block)
                   (artifact_files ca_w).
Proof.
  intros p p' [= <-].
  assert (out_files ["-out-crt"; "-out-key"; "-out-qr"]
            (ca_run_args abspath_w built_network example_block)
          = list_to_set (artifact_files ca_w)) as -> by (vm_compute; reflexivity).
  split; [set_solver|]. apply Forall_forall. intros f Hf. set_solver.
Qed.

Lemma docker_ok_contract_node :
  signing_contract docker_ok (node_args abspath_w built_network node_C1)
                   (artifact_files nd_w).
Proof.
  intros p p' [= <-].
  assert (out_files ["-out-crt"; "-out-key"; "-out-qr"]
            (node_args abspath_w built_network node_C1)
          = list_to_set (artifact_files nd_w)) as -> by (vm_compute; reflexivity).
  split; [set_solver|]. apply Forall_forall. intros f Hf. set_solver.
Qed.

Lemma complete_set_noop_witness :
  network_cert abspath_w docker_ok built_network false w_ca_complete
  = (w_ca_complete, Ok tt) ∧
  ∃ w1, sign_node abspath_w docker_ok built_network node_C1 false (world0 [])
        = (w1, Ok tt) ∧
        sign_node abspath_w docker_ok built_network node_C1 false w1
        = (ensure_dir abspath_w built_network w1, Ok tt).
Proof.
  destruct (complete_set_noop abspath_w docker_ok built_network example_block
              node_C1 w_ca_complete) as (H1 & _ & _ & _ & _ & _ & _ & Hid).
  { vm_compute. reflexivity. }
  destruct (complete_set_noop abspath_w docker_ok built_network example_block
              node_C1 (world0 [])) as (_ & _ & _ & _ & H5 & _).
  { vm_compute. reflexivity. }
  split.
  - rewrite H1; [|vm_compute; reflexivity]. rewrite Hid; [done|by vm_compute].
  - destruct (H5 docker_ok_contract_ca docker_ok_contract_node) as [_ H2].
    eexists. split; [vm_compute; reflexivity|].
    apply H2. vm_compute. reflexivity.
Defined.

(** C4 as stated makes every request on a Complete set a no-op; a request
    for a Complete node set with the authority set Absent makes the
    authority's signing run and creates its files. *)
Lemma complete_set_counterexample :
  artifact_state nd_w (paths w_node_complete) = Complete ∧
  ∃ w', sign_node abspath_w docker_ok built_network node_C1 false w_node_complete
        = (w', Ok tt) ∧
        runs w' = [(ca_run_args abspath_w built_network example_block,
                    paths w_node_complete)] ∧
        paths w' ≠ paths w_node_complete.
Proof.
  split; [vm_compute; reflexivity|].
  eexists. split; [vm_compute; reflexivity|]. split; [vm_compute; reflexivity|].
  intros Heq. 
  assert ("/w/TestCA/TestCA_10.100.100.0_24.crt" ∈ paths w_node_complete) as Hin.
  { rewrite <-Heq. by vm_compute. }
  by vm_compute in Hin.
Qed.

Lemma authority_before_node_witness :
  let w' := (sign_node abspath_w docker_ok built_network node_C1 false
                       (world0 [])).1 in
  let w2 := (network_cert abspath_w docker_ok built_network false
               (ensure_dir abspath_w built_network (world0 []))).1 in
  runs w' = runs w2 ∨
  ∃ p, runs w' = runs w2 ++ [(node_args abspath_w built_network node_C1, p)] ∧
       artifact_state ca_w p = Complete.
Proof.
  intros w' w2.
  destruct (authority_before_node abspath_w docker_ok built_network
              example_block node_C1 false (world0 []) w2 w'
              (Ok tt)
              (sign_node abspath_w docker_ok built_network node_C1 false
                         (world0 [])).2) as (_ & _ & H).
  - vm_compute. reflexivity.
  - vm_compute. reflexivity.
  - vm_compute. reflexivity.
  - destruct (H eq_refl) as [Hl|(p & Hp & Hc)]; [by left|right].
    exists p. split; [done|]. apply Hc; [apply docker_ok_contract_ca|by left].
Defined.

(** C5 as stated fails twice.  When the authority run reports success and
    has written nothing, the node is signed with the authority set Absent.
    And with the overwrite flag, a node whose output prefix is the
    authority's has the authority files deleted before its signing run. *)
Lemma authority_counterexample :
  (∃ w' p, sign_node abspath_w docker_nothing built_network node_C1 false
                     (world0 [])
           = (w', Ok tt) ∧
           last (runs w') = Some (node_args abspath_w built_network node_C1, p) ∧
           artifact_state ca_w p = Absent) ∧
  (artifact_state ca_clash (paths w_clash) = Complete ∧
   ∃ w' p, sign_node abspath_w docker_ok clash_network node_clash true w_clash
           = (w', Ok tt) ∧
           runs w' = [(node_args abspath_w clash_network node_clash, p)] ∧
           artifact_state ca_clash p = Absent).
Proof.
  split.
  - eexists _, _. split; [vm_compute; reflexivity|].
    split; vm_compute; reflexivity.
  - split; [vm_compute; reflexivity|].
    eexists _, _. split; [vm_compute; reflexivity|].
    split; vm_compute; reflexivity.
Qed.



(** ** Serialization that skips None fields *)

Lemma is_None_true v : is_None v = true ↔ v = VNone.
Proof. by destruct v. Qed.

Lemma foldl_insert_lookup {K V} `{Countable K} (keep : K * V → bool)
    (step : gmap K V → K * V → gmap K V) (l : list (K * V)) :
  (∀ m kv, step m kv = if keep kv then <[kv.1 := kv.2]> m else m) →
  NoDup l.*1 →
  ∀ k v, foldl step ∅ l !! k = Some v ↔ (k, v) ∈ l ∧ keep (k, v) = true.
Proof.
  intros Hstep. induction l as [|x l IH] using rev_ind; intros Hnd k v.
  - simpl. rewrite lookup_empty, elem_of_nil. naive_solver.
  - rewrite fmap_app in Hnd. apply NoDup_app in Hnd as (Hnd & Hx & _).
    specialize (IH Hnd). rewrite foldl_app. simpl. rewrite Hstep.
    rewrite elem_of_app, list_elem_of_singleton.
    assert (x.1 ∉ l.*1) as Hfresh.
    { intros Hin. apply (Hx _ Hin). simpl. left. }
    destruct x as [kx vx]. simpl in *.
    destruct (keep (kx, vx)) eqn:Hk.
    + destruct (decide (kx = k)) as [->|Hne].
      * rewrite lookup_insert_eq. split.
        -- intros [= ->]. split; [by right|done].
        -- intros [[Hin|[= ->]] _]; [|done].
           exfalso. apply Hfresh. apply list_elem_of_fmap. by exists (k, v).
      * rewrite lookup_insert_ne by done. rewrite IH. split.
        -- intros [??]. split; [by left|done].
        -- intros [[Hin|[= -> ->]] ?]; [done|done].
    + rewrite IH. split.
      * intros [??]. split; [by left|done].
      * intros [[Hin|[= -> ->]] Hkeep]; [done|congruence].
Qed.

Lemma NoDup_fst_unique {K V} (l : list (K * V)) k v1 v2 :
  NoDup l.*1 → (k, v1) ∈ l → (k, v2) ∈ l → v1 = v2.
Proof.
  induction l as [|[k' v'] l IH]; intros Hnd H1 H2.
  - by apply elem_of_nil in H1.
  - rewrite fmap_cons in Hnd. apply NoDup_cons in Hnd as [Hk Hnd].
    apply elem_of_cons in H1 as [?|H1];
      apply elem_of_cons in H2 as [?|H2]; simplify_eq; try done.
    + exfalso. apply Hk. apply list_elem_of_fmap. by exists (k', v2).
    + exfalso. apply Hk. apply list_elem_of_fmap. by exists (k', v1).
    + by apply IH.
Qed.

Lemma skip_none_lookup (datacls : Model) :
  NoDup (fields datacls).*1 →
  ∀ k v, _do_skip_none datacls !! k = Some v ↔
         (k, v) ∈ fields datacls ∧ (v ≠ VNone ∨ k ∉ _skip datacls).
Proof.
  intros Hnd k v. unfold _do_skip_none.
  rewrite (foldl_insert_lookup
             (λ f, negb (is_None f.2) || negb (bool_decide (f.1 ∈ _skip datacls))));
    [|done|done].
  simpl. rewrite orb_true_iff, !negb_true_iff, bool_decide_eq_false.
  rewrite <-not_true_iff_false, is_None_true. done.
Qed.

(** C8: serialization of a model through [_do_skip_none] leaves a field out
    exactly when it is listed in [_skip] and its value is None.  A field that
    is not listed is emitted with its value, whatever the value (false, 0,
    an empty list, even None); a listed field whose value is not None is
    emitted too, also when the value is falsy. *)
Theorem skip_none_emission (datacls : Model) (k : string) (v : PyVal) :
  NoDup (fields datacls).*1 →
  (k, v) ∈ fields datacls →
  (k ∈ _skip datacls → v = VNone → model_skip_none datacls !! k = None) ∧
  (k ∉ _skip datacls → model_skip_none datacls !! k = Some v) ∧
  (v ≠ VNone → model_skip_none datacls !! k = Some v).
Proof.
  intros Hnd Hin. unfold model_skip_none.
  pose proof (skip_none_lookup datacls Hnd) as Hl. split; [|split].
  - intros Hs ->. apply eq_None_not_Some. intros [v' Hv'].
    apply Hl in Hv' as [Hin' Hkeep].
    assert (v' = VNone) as ->.
    { by eapply NoDup_fst_unique. }
    naive_solver.
  - intros Hs. apply Hl. naive_solver.
  - intros Hv. apply Hl. naive_solver.
Qed.

Lemma skip_none_emission_witness :
  model_skip_none (Pki_model pki_unset) !! "blocklist" = None ∧
  model_skip_none (Pki_model pki_unset) !! "ca" = Some (VStr "ca.crt") ∧
  model_skip_none (Pki_model pki_falsy) !! "blocklist" = Some (VList []) ∧
  model_skip_none (Pki_model pki_falsy) !! "disconnect_invalid"
    = Some (VBool false).
Proof.
  assert (∀ p, NoDup (fields (Pki_model p)).*1) as Hnd.
  { intros p. simpl. apply (bool_decide_unpack _). by vm_compute. }
  split; [|split; [|split]].
  - apply (skip_none_emission (Pki_model pki_unset) "blocklist" VNone (Hnd _)).
    + simpl. set_solver.
    + simpl. set_solver.
    + reflexivity.
  - apply (skip_none_emission (Pki_model pki_unset) "ca" (VStr "ca.crt") (Hnd _)).
    + simpl. set_solver.
    + unfold Pki_model, Pki_skip. simpl. set_solver.
  - apply (skip_none_emission (Pki_model pki_falsy) "blocklist" (VList []) (Hnd _)).
    + simpl. set_solver.
    + done.
  - apply (skip_none_emission (Pki_model pki_falsy) "disconnect_invalid"
             (VBool false) (Hnd _)).
    + simpl. set_solver.
    + done.
Defined.

(** ** Static host map *)

Lemma dict_lookup_elem {K V} `{Countable K} (l : list (K * V)) k v :
  dict l !! k = Some v → (k, v) ∈ l.
Proof.
  unfold dict. induction l as [|[kx vx] l IH] using rev_ind.
  - simpl. by rewrite lookup_empty.
  - rewrite foldl_app. simpl. rewrite elem_of_app, list_elem_of_singleton.
    destruct (decide (kx = k)) as [->|Hne].
    + rewrite lookup_insert_eq. intros [= ->]. by right.
    + rewrite lookup_insert_ne by done. intros ?%IH. by left.
Qed.

Lemma dict_lookup_NoDup {K V} `{Countable K} (l : list (K * V)) k v :
  NoDup l.*1 → (k, v) ∈ l → dict l !! k = Some v.
Proof.
  unfold dict. induction l as [|[kx vx] l IH] using rev_ind; intros Hnd Hin.
  - by apply elem_of_nil in Hin.
  - rewrite fmap_app in Hnd. apply NoDup_app in Hnd as (Hnd & Hx & _).
    rewrite foldl_app. simpl.
    apply elem_of_app in Hin as [Hin|Hin].
    + rewrite lookup_insert_ne; [by apply IH|].
      intros ->. apply (Hx k); [|simpl; left].
      apply list_elem_of_fmap. by exists (k, v).
    + apply list_elem_of_singleton in Hin as [= -> ->].
      by rewrite lookup_insert_eq.
Qed.

Lemma validated_contents_lookup (d : RawHostMap) (a : N) v' :
  (list_to_map (omap validated_entry (map_to_list d))
     : gmap N (list RoutableIPPort)) !! a = Some v'
  ↔ ∃ v, d !! Some a = Some v ∧ v' = omap id v.
Proof.
  split.
  - intros Hl. apply elem_of_list_to_map_2 in Hl.
    apply list_elem_of_omap in Hl as ([k v] & Hin & Hval).
    apply elem_of_map_to_list in Hin.
    unfold validated_entry in Hval. simpl in Hval.
    destruct k as [k|]; [|done]. injection Hval as -> <-. eauto.
  - intros (v & Hd & ->). apply elem_of_list_to_map_1'.
    + intros y Hy. apply list_elem_of_omap in Hy as ([k v2] & Hin & Hval).
      apply elem_of_map_to_list in Hin.
      unfold validated_entry in Hval. simpl in Hval.
      destruct k as [k|]; [|done]. injection Hval as -> <-. congruence.
    + apply list_elem_of_omap. exists (Some a, v). split; [|done].
      by apply elem_of_map_to_list.
Qed.

Lemma host_pairs_valid nw :
  Forall (λ n, is_Some (ip n) ∧ is_Some (public n)) (lighthouses nw) →
  map_Forall valid_entry (dict (host_pairs nw)).
Proof.
  intros Hall k v Hkv. apply dict_lookup_elem in Hkv.
  apply list_elem_of_fmap in Hkv as (n & [= -> ->] & Hn).
  rewrite Forall_forall in Hall. destruct (Hall n Hn) as [Hip Hpub].
  split; [done|]. by repeat constructor.
Qed.


Lemma host_pairs_view (l1 : list NebulaNode) : ∀ l2,
  view l1 = view l2 →
  (λ n, (ip n, [public n])) <$> filter (λ n, am_lighthouse n = true) l1
  = (λ n, (ip n, [public n])) <$> filter (λ n, am_lighthouse n = true) l2.
Proof.
  induction l1 as [|x l1 IH]; intros [|y l2] Heq; try done.
  injection Heq as Hlh Hip Hpub Heq. specialize (IH _ Heq).
  destruct (am_lighthouse x) eqn:Hx.
  - rewrite !filter_cons_True by done. rewrite !fmap_cons, IH. congruence.
  - rewrite !filter_cons_False by congruence. done.
Qed.

Lemma node_static_host_map_view nw1 nw2 nd1 nd2 :
  view (nodes nw1) = view (nodes nw2) →
  am_lighthouse nd1 = am_lighthouse nd2 →
  node_static_host_map nw1 nd1 = node_static_host_map nw2 nd2.
Proof.
  intros Hv Hlh. unfold node_static_host_map, host_pairs, lighthouses.
  by rewrite Hlh, (host_pairs_view _ _ Hv).
Qed.

Lemma view_set_config ns i nd g c :
  ns !! i = Some nd → view (<[i := set_config nd g c]> ns) = view ns.
Proof.
  intros Hi. unfold view. rewrite list_fmap_insert. simpl.
  apply list_insert_id. by rewrite list_lookup_fmap, Hi.
Qed.

Lemma dict_lookup_last {K V} `{Countable K} (l1 l2 : list (K * V)) k v :
  k ∉ l2.*1 → dict (l1 ++ (k, v) :: l2) !! k = Some v.
Proof.
  unfold dict. induction l2 as [|[kx vx] l2 IH] using rev_ind; intros Hk.
  - rewrite foldl_app. simpl. by rewrite lookup_insert_eq.
  - rewrite fmap_app, not_elem_of_app in Hk. destruct Hk as [Hk Hx].
    rewrite app_comm_cons, app_assoc, foldl_app. simpl.
    rewrite lookup_insert_ne; [by apply IH|].
    intros ->. apply Hx. simpl. left.
Qed.

Lemma dict_lookup_split {K V} `{Countable K} (l : list (K * V)) k v :
  dict l !! k = Some v → ∃ l1 l2, l = l1 ++ (k, v) :: l2 ∧ k ∉ l2.*1.
Proof.
  unfold dict. induction l as [|[kx vx] l IH] using rev_ind.
  - simpl. by rewrite lookup_empty.
  - rewrite foldl_app. simpl. destruct (decide (kx = k)) as [->|Hne].
    + rewrite lookup_insert_eq. intros [= ->]. exists l, [].
      split; [done|]. apply not_elem_of_nil.
    + rewrite lookup_insert_ne by done. intros (l1 & l2 & -> & Hk)%IH.
      exists l1, (l2 ++ [(kx, vx)]). split; [by rewrite <-app_assoc|].
      rewrite fmap_app, not_elem_of_app. split; [done|].
      simpl. rewrite list_elem_of_singleton. congruence.
Qed.

Lemma host_pairs_lookup nw k v :
  dict (host_pairs nw) !! k = Some v
  ↔ ∃ n, kept_lighthouse nw n ∧ ip n = k ∧ v = [public n].
Proof.
  unfold host_pairs, kept_lighthouse. split.
  - intros (p1 & p2 & Heq & Hk)%dict_lookup_split.
    apply fmap_app_inv in Heq as (l1 & l2' & -> & Heq & Hl).
    symmetry in Heq. apply fmap_cons_inv in Heq as (n & l2 & Hn & -> & ->).
    injection Hn as -> ->.
    exists n. split; [|done]. exists l1, l2. split; [done|].
    by rewrite <-list_fmap_compose in Hk.
  - intros (n & (l1 & l2 & -> & Hk) & <- & ->).
    rewrite fmap_app, fmap_cons. apply dict_lookup_last.
    by rewrite <-list_fmap_compose.
Qed.

Lemma kept_lighthouse_NoDup nw n :
  NoDup (ip <$> lighthouses nw) → n ∈ lighthouses nw → kept_lighthouse nw n.
Proof.
  intros Hnd Hn. apply list_elem_of_split in Hn as (l1 & l2 & Heq).
  exists l1, l2. split; [done|]. rewrite Heq, fmap_app, fmap_cons in Hnd.
  apply NoDup_app in Hnd as (_ & _ & Hnd). by apply NoDup_cons in Hnd as [? _].
Qed.

Section composition.
Variable abspath : string → string.
Variable docker : RunArgs → gset string → gset string * option PyExc.

Lemma create_node_cert_from_spec (todo : list NebulaNode) :
  ∀ nw0 i w w' nw',
  (∀ k nd, todo !! k = Some nd → nodes nw0 !! (i + k) = Some nd) →
  create_node_cert_from abspath docker nw0 i todo w = (w', Ok nw') →
  view (nodes nw') = view (nodes nw0) ∧
  length (nodes nw') = length (nodes nw0) ∧
  (∀ j, j < i → nodes nw' !! j = nodes nw0 !! j) ∧
  (∀ k nd, todo !! k = Some nd →
     ∃ g cfg, nodes nw' !! (i + k) = Some (set_config nd g cfg) ∧
              node_static_host_map nw0 nd = Ok (static_host_map cfg)).
Proof.
  induction todo as [|node rest IH]; intros nw0 i w w' nw' Hpos Hrun.
  - injection Hrun as _ <-. repeat split; [done..|].
    intros k nd Hk. by rewrite lookup_nil in Hk.
  - simpl in Hrun. unfold bind at 1 in Hrun.
    destruct (sign_node _ _ _ _ _ _) as [w1 [[]|e]]; [|done].
    unfold bind at 1 in Hrun. unfold ca_outputs in Hrun.
    rewrite outputs_pure in Hrun.
    unfold bind at 1, lift in Hrun. unfold artifact_files at 1 in Hrun.
    cbn [unpack3] in Hrun.
    unfold bind at 1 in Hrun. unfold node_outputs in Hrun.
    rewrite outputs_pure in Hrun.
    unfold bind at 1, lift in Hrun. unfold artifact_files at 1 in Hrun.
    cbn [unpack3] in Hrun.
    unfold bind at 1, lift in Hrun.
    destruct (compose_config _ _ _ _ _) as [[g cfg]|e] eqn:Hcfg; [|done].
    cbn [fst snd] in Hrun.
    assert (nodes nw0 !! i = Some node) as Hi.
    { specialize (Hpos 0 node eq_refl). by rewrite Nat.add_0_r in Hpos. }
    assert (node_static_host_map nw0 node = Ok (static_host_map cfg)) as Hshm.
    { unfold compose_config in Hcfg.
      destruct (get_firewall_items_from_groups node) as [g0 fw].
      destruct (node_static_host_map nw0 node) as [shm|]; [|done].
      simpl in Hcfg. by injection Hcfg as _ <-. }
    apply IH in Hrun as (Hview & Hlen & Hlow & Hrest).
    2:{ intros k nd Hk. simpl. rewrite list_lookup_insert_ne by lia.
        specialize (Hpos (S k) nd Hk).
        by replace (S (i + k)) with (i + S k) by lia. }
    simpl in Hview, Hlen, Hlow, Hrest.
    rewrite view_set_config in Hview by done.
    rewrite length_insert in Hlen.
    split; [done|]. split; [done|]. split.
    + intros j Hj. rewrite Hlow by lia. by rewrite list_lookup_insert_ne by lia.
    + intros [|k] nd Hk; simpl in Hk.
      * injection Hk as <-. exists g, cfg. split; [|done].
        rewrite Nat.add_0_r, Hlow by lia.
        apply list_lookup_insert_eq. by eapply lookup_lt_Some.
      * destruct (Hrest k nd Hk) as (g' & cfg' & Hl & Hs).
        exists g', cfg'. split.
        { by replace (i + S k) with (S i + k) by lia. }
        rewrite <-Hs. apply node_static_host_map_view; [|done].
        simpl. symmetry. by apply view_set_config.
Qed.

Lemma create_node_cert_spec nw w w' nw' :
  create_node_cert abspath docker nw w = (w', Ok nw') →
  length (nodes nw') = length (nodes nw) ∧
  ∀ j nd, nodes nw !! j = Some nd →
    ∃ g cfg, nodes nw' !! j = Some (set_config nd g cfg) ∧
             node_static_host_map nw nd = Ok (static_host_map cfg).
Proof.
  intros Hrun. apply create_node_cert_from_spec in Hrun as (_ & Hl & _ & H).
  - split; [done|]. intros j nd Hj. by apply (H j nd).
  - intros k nd Hk. done.
Qed.

(** C7, as amended: the static host map composed for a lighthouse is
    empty, whatever the network.  For a node that is not a lighthouse the
    map is built from the lighthouses in declared order, a later lighthouse
    replacing an earlier one declared with the same address.  When every
    lighthouse so kept has an address and a public endpoint, the map sends
    the address of each kept lighthouse to the one-element list holding
    that lighthouse's public endpoint and has no other entry; when the
    lighthouses have pairwise distinct addresses that is every lighthouse
    that has an address and an endpoint.  When a kept lighthouse lacks its
    address or its public endpoint, validation refuses the map.
    [create_node_cert], when it succeeds, leaves at each position the node
    that was there, with its name, address, lighthouse flag and public
    endpoint, and with a configuration whose static host map is that
    map. *)
Theorem static_host_map_of_node (nw : NebulaNetwork) :
  (∀ node, am_lighthouse node = true →
     node_static_host_map nw node = Ok {| contents := ∅ |}) ∧
  (∀ node, am_lighthouse node = false →
     ((∀ n, kept_lighthouse nw n → is_Some (ip n) ∧ is_Some (public n)) →
      ∃ shm, node_static_host_map nw node = Ok shm ∧
        (∀ a v, contents shm !! a = Some v ↔
                ∃ n ep, kept_lighthouse nw n ∧ ip n = Some a ∧
                        public n = Some ep ∧ v = [ep]) ∧
        (NoDup (ip <$> lighthouses nw) →
         ∀ n a ep, n ∈ lighthouses nw → ip n = Some a → public n = Some ep →
                   contents shm !! a = Some [ep])) ∧
     ((∃ n, kept_lighthouse nw n ∧ (ip n = None ∨ public n = None)) →
      node_static_host_map nw node = Raise ValidationError)) ∧
  (∀ w w' nw', create_node_cert abspath docker nw w = (w', Ok nw') →
     ∀ j nd, nodes nw !! j = Some nd →
       ∃ nd' cfg, nodes nw' !! j = Some nd' ∧ config nd' = Some cfg ∧
                  name nd' = name nd ∧ ip nd' = ip nd ∧
                  am_lighthouse nd' = am_lighthouse nd ∧
                  public nd' = public nd ∧
                  node_static_host_map nw nd = Ok (static_host_map cfg)).
Proof.
  split; [|split].
  - intros node Hlh. unfold node_static_host_map. by rewrite Hlh.
  - intros node Hlh. unfold node_static_host_map, StaticHostMap_new.
    rewrite Hlh. cbn [negb]. split.
    + intros Hall. rewrite decide_True.
      2:{ intros k v (n & Hk & <- & ->)%host_pairs_lookup.
          destruct (Hall n Hk) as [Hip Hpub]. split; [done|].
          by repeat constructor. }
      eexists. split; [done|]. cbn [contents].
      assert (∀ a v, (list_to_map (omap validated_entry
                        (map_to_list (dict (host_pairs nw))))
                      : gmap N (list RoutableIPPort)) !! a = Some v ↔
                ∃ n ep, kept_lighthouse nw n ∧ ip n = Some a ∧
                        public n = Some ep ∧ v = [ep]) as Hiff.
      { intros a v. rewrite validated_contents_lookup. split.
        - intros (v0 & (n & Hk & Hip & ->)%host_pairs_lookup & ->).
          destruct (Hall n Hk) as [_ [ep Hpub]]. exists n, ep.
          rewrite Hpub. done.
        - intros (n & ep & Hk & Hip & Hpub & ->). exists [Some ep].
          split; [|done]. apply host_pairs_lookup. exists n.
          by rewrite Hpub. }
      split; [exact Hiff|].
      intros Hnd n a ep Hn Hip Hpub. apply Hiff. exists n, ep.
      split; [by apply kept_lighthouse_NoDup|done].
    + intros (n & Hk & Hmiss). rewrite decide_False; [done|].
      intros Hall.
      assert (dict (host_pairs nw) !! ip n = Some [public n]) as Hl.
      { apply host_pairs_lookup. by exists n. }
      apply Hall in Hl as [Hkey Hv]. destruct Hmiss as [Hip|Hpub].
      * rewrite Hip in Hkey. by destruct Hkey.
      * rewrite Hpub in Hv. apply Forall_cons in Hv as [[? ?] _]. done.
  - intros w w' nw' Hrun j nd Hj.
    destruct (proj2 (create_node_cert_spec nw w w' nw' Hrun) j nd Hj)
      as (g & cfg & Hl & Hs).
    exists (set_config nd g cfg), cfg. by repeat split.
Qed.
End composition.

Example built_network_lighthouses : lighthouses built_network = [node_B].
Proof. vm_compute. reflexivity. Qed.

Lemma kept_built_network (n : NebulaNode) :
  kept_lighthouse built_network n ↔ n = node_B.
Proof.
  unfold kept_lighthouse. rewrite built_network_lighthouses. split.
  - intros (l1 & l2 & Heq & _). destruct l1 as [|x l1]; simpl in Heq.
    + by injection Heq as <- _.
    + injection Heq as _ Heq. by destruct l1.
  - intros ->. exists [], []. split; [done|]. apply not_elem_of_nil.
Qed.

Lemma static_host_map_of_node_witness :
  (∃ shm, node_static_host_map built_network node_A = Ok shm ∧
          ∀ a v, contents shm !! a = Some v
                 ↔ a = ip4 10 100 100 6 ∧ v = [ep_1]) ∧
  (∃ shm, node_static_host_map built_network node_C1 = Ok shm ∧
          ∀ a v, contents shm !! a = Some v
                 ↔ a = ip4 10 100 100 6 ∧ v = [ep_1]) ∧
  node_static_host_map built_network node_B = Ok {| contents := ∅ |}.
Proof.
  destruct (static_host_map_of_node abspath_w docker_ok built_network)
    as (Hlh & Hnon & _).
  assert (∀ node, am_lighthouse node = false →
            ∃ shm, node_static_host_map built_network node = Ok shm ∧
              ∀ a v, contents shm !! a = Some v
                     ↔ a = ip4 10 100 100 6 ∧ v = [ep_1]) as H.
  { intros node Hnode. destruct (Hnon node Hnode) as [Hok _].
    destruct Hok as (shm & Hs & Hiff & _).
    { intros n ->%kept_built_network. split; by eexists. }
    exists shm. split; [done|]. intros a v. rewrite Hiff. split.
    - intros (n & ep & ->%kept_built_network & [= <-] & [= <-] & ->). done.
    - intros [-> ->]. exists node_B, ep_1. by rewrite kept_built_network. }
  split; [by apply H|]. split; [by apply H|]. by apply Hlh.
Defined.

(** The example of the specification, run to the end with a signing process
    that succeeds: A and C get the map with the single entry for B, and B
    gets the empty map. *)
Example example_static_host_maps :
  ∃ w' nw', create_node_cert abspath_w docker_ok built_network (world0 [])
            = (w', Ok nw') ∧
            (λ nd, (λ c, map_to_list (contents (static_host_map c)))
                     <$> config nd) <$> nodes nw'
            = [Some [(ip4 10 100 100 6,
                      [{| rip := ip4 203 0 113 1; rport := 4242 |}])];
               Some [];
               Some [(ip4 10 100 100 6,
                      [{| rip := ip4 203 0 113 1; rport := 4242 |}])]].
Proof. eexists _, _. split; vm_compute; reflexivity. Qed.

(** C7 as stated sends the address of every lighthouse to that lighthouse's
    endpoint.  Of two lighthouses declared with one address, the map
    composed for an ordinary node keeps the second only: the address of L1
    is sent to the endpoint of L2.  And beside a lighthouse declared
    without a public endpoint no map is composed for an ordinary node:
    validation refuses it. *)
Lemma static_host_map_counterexample :
  (mk_node "L1" (Some (ip4 10 100 100 1)) true (Some ep_1)
     ∈ lighthouses shadowed_network ∧
   ep_1 ≠ ep_2 ∧
   ∃ shm, node_static_host_map shadowed_network
            (mk_node "N" (Some (ip4 10 100 100 2)) false None) = Ok shm ∧
          contents shm !! ip4 10 100 100 1 = Some [ep_2]) ∧
  (mk_node "L" (Some (ip4 10 100 100 1)) true None ∈ lighthouses blind_network ∧
   node_static_host_map blind_network
     (mk_node "N" (Some (ip4 10 100 100 2)) false None)
   = Raise ValidationError).
Proof.
  split; [split; [|split]|split].
  - vm_compute. apply list_elem_of_here.
  - done.
  - eexists. split; vm_compute; reflexivity.
  - vm_compute. apply list_elem_of_here.
  - vm_compute. reflexivity.
Qed.

(** ** Output layout and node selection *)

Lemma substring_0_length (s : string) :
  String.substring 0 (String.length s) s = s.
Proof. induction s as [|c s IH]; simpl; [done|by rewrite IH]. Qed.

Lemma substring_app_r (a b : string) :
  String.substring (String.length a) (String.length b) (a +:+ b) = b.
Proof.
  induction a as [|c a IH].
  - apply substring_0_length.
  - change (String c a +:+ b) with (String c (a +:+ b)). simpl. exact IH.
Qed.

Lemma endswith_app (a b : string) : endswith (a +:+ b) b = true.
Proof.
  unfold endswith. rewrite string_length_app.
  replace (String.length a + String.length b - String.length b)
    with (String.length a) by lia.
  rewrite substring_app_r, String.eqb_refl. simpl.
  apply bool_decide_eq_true. lia.
Qed.

Lemma substring_suffix (n : nat) : ∀ (m : nat) (s t : string),
  n + m = String.length s → String.substring n m s = t →
  ∃ pre, s = pre +:+ t.
Proof.
  induction n as [|n IH]; intros m s t Hlen Hsub.
  - exists "". simpl in Hlen. subst m. by rewrite substring_0_length in Hsub.
  - destruct s as [|c s]; [done|]. simpl in Hlen, Hsub.
    destruct (IH m s t) as [pre ->]; [lia|done|]. by exists (String c pre).
Qed.

Lemma endswith_inv (s suffix : string) :
  endswith s suffix = true → ∃ pre, s = pre +:+ suffix.
Proof.
  unfold endswith. intros [Heq Hle]%andb_true_iff.
  apply bool_decide_eq_true in Hle. apply String.eqb_eq in Heq.
  eapply substring_suffix; [|exact Heq]. lia.
Qed.

Lemma not_endswith_compose (x n : string) :
  endswith (x +:+ n +:+ "_docker-compose.yml") (n +:+ "_compose.yml") = false.
Proof.
  apply not_true_iff_false. intros [pre Heq]%endswith_inv.
  change "_docker-compose.yml" with ("_docker" +:+ "-compose.yml") in Heq.
  rewrite !string_app_assoc in Heq.
  assert ((x +:+ n) +:+ "_docker" = pre +:+ n) as Hpre
    by by apply string_app_inj_r in Heq.
  rewrite Hpre in Heq. by apply String.app_inj in Heq.
Qed.

Section layout.
Variable abspath : string → string.

(** C9, as amended: the configuration file of a node named n is the file
    n.yaml of the network's output directory, and its composition
    descriptor is the file n_docker-compose.yml of that directory; the
    descriptor path does not end in n_compose.yml. *)
Theorem node_output_paths (nw : NebulaNetwork) (node : NodeRef) :
  let n := node_ref_name node in
  node_config abspath nw node = temp_dir abspath nw +:+ "/" +:+ n +:+ ".yaml" ∧
  node_compose abspath nw node
  = temp_dir abspath nw +:+ "/" +:+ n +:+ "_docker-compose.yml" ∧
  endswith (node_config abspath nw node) (n +:+ ".yaml") = true ∧
  endswith (node_compose abspath nw node) (n +:+ "_docker-compose.yml") = true ∧
  endswith (node_compose abspath nw node) (n +:+ "_compose.yml") = false.
Proof.
  intros n. 
  assert (node_config abspath nw node
          = temp_dir abspath nw +:+ "/" +:+ n +:+ ".yaml") as Hc by reflexivity.
  assert (node_compose abspath nw node
          = temp_dir abspath nw +:+ "/" +:+ n +:+ "_docker-compose.yml") as Hd
    by reflexivity.
  split; [done|]. split; [done|]. rewrite Hc, Hd.
  rewrite !(string_app_assoc (temp_dir abspath nw) "/").
  split; [apply endswith_app|]. split; [apply endswith_app|].
  apply not_endswith_compose.
Qed.

(** C10: [get_nodes] with a name filter raises TypeError, whatever the
    filter and the nodes, because the str argument itself is applied;
    without a filter it returns the node list; hence saving the
    configuration of one given node fails: for a node object with that
    TypeError, for a node name already when the unbound local is read. *)
Theorem get_nodes_filter_fails (nw : NebulaNetwork) :
  (∀ f, get_nodes nw (Some f) = Raise TypeError) ∧
  get_nodes nw None = Ok (nodes nw) ∧
  (∀ node w, save_node_configs abspath nw (ArgNode node) w = (w, Raise TypeError)) ∧
  (∀ s w, save_node_configs abspath nw (ArgStr s) w
          = (w, Raise UnboundLocalError)).
Proof. done. Qed.
End layout.

(** C9 as stated gives the descriptor the name n_compose.yml; for node A the
    path is A_docker-compose.yml. *)
Lemma compose_name_counterexample :
  node_compose abspath_w built_network (ByNode node_A)
  = "/w/TestCA/A_docker-compose.yml" ∧
  endswith (node_compose abspath_w built_network (ByNode node_A)) "A_compose.yml"
  = false.
Proof. split; vm_compute; reflexivity. Qed.

(** * Further properties *)

(** ** Construction of a network *)

Lemma strip_spaces_chars (s : string) :
  String.list_ascii_of_string (strip_spaces s)
  = filter (λ c, c ≠ " "%char) (String.list_ascii_of_string s).
Proof.
  induction s as [|c s IH]; [done|]. simpl.
  destruct (Ascii.eqb c " ") eqn:Hc.
  - apply Ascii.eqb_eq in Hc as ->. by rewrite filter_cons_False by naive_solver.
  - apply Ascii.eqb_neq in Hc. rewrite filter_cons_True by done.
    simpl. by rewrite IH.
Qed.

Lemma strip_spaces_idemp (s : string) :
  strip_spaces (strip_spaces s) = strip_spaces s.
Proof.
  induction s as [|c s IH]; [done|]. simpl.
  destruct (Ascii.eqb c " ") eqn:Hc; [done|]. simpl. by rewrite Hc, IH.
Qed.

Lemma assign_hosts_set hosts ns i :
  Forall (λ nd, is_Some (ip nd)) ns → assign_hosts hosts i ns = Ok ns.
Proof.
  induction 1 as [|nd ns [a Ha] _ IH]; [done|]. simpl. by rewrite Ha, IH.
Qed.

Lemma model_post_init_inv nw nw' :
  model_post_init nw = Ok nw' →
  ∃ net ns, network nw = Ok net ∧
    assign_hosts (sorted (pool net (nodes nw))) 0 (nodes nw) = Ok ns ∧
    nw' = {| cert_authority := strip_spaces (cert_authority nw);
             net_ip := net_ip nw; nodes := ns; cidr := cidr nw |}.
Proof.
  unfold model_post_init. destruct (network nw) as [net|] eqn:Hnet; [|done].
  simpl. destruct (assign_hosts _ _ _) as [ns|] eqn:Ha; [|done].
  simpl. intros [= <-]. eauto.
Qed.

(** X1: construction is idempotent.  A network that [model_post_init]
    has built is left as it is when [model_post_init] runs on it again:
    the name has no space left to strip, every node has its address, and
    no address is assigned a second time. *)
Theorem model_post_init_idempotent (nw nw' : NebulaNetwork) :
  model_post_init nw = Ok nw' → model_post_init nw' = Ok nw'.
Proof.
  intros (net & ns & Hnet & Ha & ->)%model_post_init_inv.
  unfold model_post_init. simpl.
  change (network {| cert_authority := strip_spaces (cert_authority nw);
                     net_ip := net_ip nw; nodes := ns; cidr := cidr nw |})
    with (network nw).
  rewrite Hnet. simpl. rewrite assign_hosts_set by by eapply assign_hosts_all_set.
  simpl. by rewrite strip_spaces_idemp.
Qed.

Lemma model_post_init_idempotent_witness :
  model_post_init built_network = Ok built_network.
Proof.
  apply (model_post_init_idempotent example_network). vm_compute. reflexivity.
Defined.

Lemma assign_hosts_keeps hosts ns : ∀ i ns',
  assign_hosts hosts i ns = Ok ns' →
  Forall2 (λ nd nd', name nd' = name nd ∧ port nd' = port nd ∧
                     am_lighthouse nd' = am_lighthouse nd ∧
                     public nd' = public nd ∧ config nd' = config nd ∧
                     groups nd' = groups nd ∧
                     (is_Some (ip nd) → ip nd' = ip nd)) ns ns'.
Proof.
  induction ns as [|nd ns IH]; intros i ns' Hr; simpl in Hr.
  - injection Hr as <-. constructor.
  - destruct (ip nd) as [b|] eqn:Hip.
    + destruct (assign_hosts hosts i ns) as [r|] eqn:Ha; [|done].
      injection Hr as <-. apply Forall2_cons. split; [|exact (IH _ _ Ha)].
      by rewrite Hip.
    + destruct (hosts !! i) as [a|]; [|done].
      destruct (assign_hosts hosts (S i) ns) as [r|] eqn:Ha; [|done].
      injection Hr as <-. apply Forall2_cons. split; [|exact (IH _ _ Ha)].
      rewrite Hip. repeat split; done.
Qed.

(** X2: what construction leaves alone.  The name of the constructed
    network is the declared one less its spaces; the address and the
    prefix length of the block are unchanged; the nodes come in the
    declared order, one for one, each with its name, port, lighthouse flag,
    public endpoint, configuration and groups, and a node declared with an
    address keeps that address. *)
Theorem model_post_init_keeps (nw nw' : NebulaNetwork) :
  model_post_init nw = Ok nw' →
  String.list_ascii_of_string (cert_authority nw')
  = filter (λ c, c ≠ " "%char) (String.list_ascii_of_string (cert_authority nw)) ∧
  net_ip nw' = net_ip nw ∧ cidr nw' = cidr nw ∧
  Forall2 (λ nd nd', name nd' = name nd ∧ port nd' = port nd ∧
                     am_lighthouse nd' = am_lighthouse nd ∧
                     public nd' = public nd ∧ config nd' = config nd ∧
                     groups nd' = groups nd ∧
                     (is_Some (ip nd) → ip nd' = ip nd))
          (nodes nw) (nodes nw').
Proof.
  intros (net & ns & Hnet & Ha & ->)%model_post_init_inv. simpl.
  split; [apply strip_spaces_chars|]. split; [done|]. split; [done|].
  by eapply assign_hosts_keeps.
Qed.

Lemma model_post_init_keeps_witness :
  String.list_ascii_of_string (cert_authority built_network)
  = filter (λ c, c ≠ " "%char)
           (String.list_ascii_of_string (cert_authority example_network)) ∧
  net_ip built_network = net_ip example_network ∧
  cidr built_network = cidr example_network ∧
  Forall2 (λ nd nd', name nd' = name nd ∧ port nd' = port nd ∧
                     am_lighthouse nd' = am_lighthouse nd ∧
                     public nd' = public nd ∧ config nd' = config nd ∧
                     groups nd' = groups nd ∧
                     (is_Some (ip nd) → ip nd' = ip nd))
          (nodes example_network) (nodes built_network).
Proof.
  apply (model_post_init_keeps example_network built_network).
  vm_compute. reflexivity.
Defined.

(** ** Output files: deletion and assertion *)

Section outputs_facts.
Variable abspath : string → string.
Variable docker : RunArgs → gset string → gset string * option PyExc.

Lemma outputs_rm_mode prefix mode w :
  outputs prefix mode false true w =
    (remove_files (artifact_files prefix) w,
     Ok match mode with
        | ExistFalse => Files (artifact_files prefix)
        | ExistAll | ExistAny => Flag false
        | ExistTrue => NoOutputs
        end).
Proof.
  unfold outputs, bind. rewrite (outputs_loop_rm abspath), app_nil_l.
  change ((λ ext, prefix +:+ "." +:+ ext) <$> ["crt"; "key"; "png"])
    with (artifact_files prefix).
  pose proof (artifact_state_removed prefix w) as Habs.
  apply artifact_state_Absent in Habs.
  assert (existsb (λ f, bool_decide (f ∈ paths (remove_files (artifact_files prefix) w)))
                  (artifact_files prefix) = false) as Hany.
  { apply not_true_iff_false. intros (f & Hin & Hf)%existsb_exists.
    apply bool_decide_eq_true in Hf. rewrite Forall_forall in Habs.
    by apply (Habs f); [apply list_elem_of_In|]. }
  assert (forallb (λ f, bool_decide (f ∈ paths (remove_files (artifact_files prefix) w)))
                  (artifact_files prefix) = false) as Hall.
  { apply not_true_iff_false. intros Hall. rewrite forallb_forall in Hall.
    rewrite Forall_forall in Habs.
    assert (prefix +:+ "." +:+ "crt" ∈ artifact_files prefix) as Hin by left.
    apply (Habs _ Hin). eapply bool_decide_eq_true_1, Hall.
    by apply list_elem_of_In. }
  destruct mode; unfold all_exist, any_exist, ret; by rewrite ?Hany, ?Hall.
Qed.

(** X3: [node_outputs] and [ca_outputs] with [rm_exist]: whatever the
    files present, the call succeeds, the three files of the set are gone
    afterwards (the set is Absent), no other path is touched and no run is
    made; the value returned is the list of the three paths without
    [exist], and False for [exist="all"] and [exist="any"]. *)
Theorem outputs_rm_exist (nw : NebulaNetwork) (node : NebulaNode)
    (mode : ExistMode) (w : World) :
  let p := node_prefix abspath nw node in
  let c := ca_cert_prefix abspath nw in
  (∃ w', node_outputs abspath nw node mode false true w
         = (w', Ok match mode with
                   | ExistFalse => Files (artifact_files p)
                   | ExistAll | ExistAny => Flag false
                   | ExistTrue => NoOutputs
                   end) ∧
         artifact_state p (paths w') = Absent ∧
         runs w' = runs w ∧
         ∀ f, f ∉ artifact_files p → f ∈ paths w' ↔ f ∈ paths w) ∧
  (∃ w', ca_outputs abspath nw mode false true w
         = (w', Ok match mode with
                   | ExistFalse => Files (artifact_files c)
                   | ExistAll | ExistAny => Flag false
                   | ExistTrue => NoOutputs
                   end) ∧
         artifact_state c (paths w') = Absent ∧
         runs w' = runs w ∧
         ∀ f, f ∉ artifact_files c → f ∈ paths w' ↔ f ∈ paths w).
Proof.
  intros p c. split.
  - exists (remove_files (artifact_files p) w). split; [apply outputs_rm_mode|].
    split; [apply artifact_state_removed|]. split; [done|].
    intros f Hf. unfold remove_files. cbn [paths].
    rewrite elem_of_difference, elem_of_list_to_set. tauto.
  - exists (remove_files (artifact_files c) w). split; [apply outputs_rm_mode|].
    split; [apply artifact_state_removed|]. split; [done|].
    intros f Hf. unfold remove_files. cbn [paths].
    rewrite elem_of_difference, elem_of_list_to_set. tauto.
Qed.

Lemma assert_step f w :
  (e <- os_path_exists f ;; if e then ret tt else raise AssertionError) w
  = (w, if bool_decide (f ∈ paths w) then Ok tt else Raise AssertionError).
Proof. unfold bind, os_path_exists, ret, raise. by case_bool_decide. Qed.

Lemma outputs_loop_assert prefix exts : ∀ fs w,
  outputs_loop prefix exts true false fs w =
    if forallb (λ f, bool_decide (f ∈ paths w))
               ((λ ext, prefix +:+ "." +:+ ext) <$> exts)
    then (w, Ok (fs ++ ((λ ext, prefix +:+ "." +:+ ext) <$> exts)))
    else (w, Raise AssertionError).
Proof.
  induction exts as [|ext exts IH]; intros fs w.
  - simpl. by rewrite app_nil_r.
  - cbn [outputs_loop fmap list_fmap forallb].
    unfold bind at 1. rewrite assert_step.
    destruct (bool_decide (prefix +:+ "." +:+ ext ∈ paths w)); cbn [andb]; [|done].
    unfold bind at 1. unfold ret at 1. rewrite IH, <-app_assoc. done.
Qed.

Lemma outputs_assert prefix mode w :
  outputs prefix mode true false w =
    match artifact_state prefix (paths w) with
    | Complete =>
        (w, Ok match mode with
               | ExistFalse => Files (artifact_files prefix)
               | ExistAll | ExistAny => Flag true
               | ExistTrue => NoOutputs
               end)
    | _ => (w, Raise AssertionError)
    end.
Proof.
  unfold outputs, bind. rewrite outputs_loop_assert, app_nil_l.
  change ((λ ext, prefix +:+ "." +:+ ext) <$> ["crt"; "key"; "png"])
    with (artifact_files prefix).
  unfold artifact_state.
  destruct (forallb _ _) eqn:Hall; [|by destruct (existsb _ _)].
  assert (existsb (λ f, bool_decide (f ∈ paths w)) (artifact_files prefix) = true)
    as Hany.
  { apply existsb_exists. exists (prefix +:+ "." +:+ "crt").
    split; [by left|]. rewrite forallb_forall in Hall. apply Hall. by left. }
  destruct mode; unfold all_exist, any_exist, ret; by rewrite ?Hall, ?Hany.
Qed.

(** X4: [node_outputs] and [ca_outputs] with [assert_exist] (and
    without [rm_exist]): the call succeeds exactly when the set is
    Complete, and raises AssertionError when it is Partial or Absent; either
    way nothing is created, deleted or run. *)
Theorem outputs_assert_exist (nw : NebulaNetwork) (node : NebulaNode)
    (mode : ExistMode) (w : World) :
  let p := node_prefix abspath nw node in
  let c := ca_cert_prefix abspath nw in
  (artifact_state p (paths w) = Complete →
     node_outputs abspath nw node mode true false w
     = (w, Ok match mode with
              | ExistFalse => Files (artifact_files p)
              | ExistAll | ExistAny => Flag true
              | ExistTrue => NoOutputs
              end)) ∧
  (artifact_state p (paths w) ≠ Complete →
     node_outputs abspath nw node mode true false w = (w, Raise AssertionError)) ∧
  (artifact_state c (paths w) = Complete →
     ca_outputs abspath nw mode true false w
     = (w, Ok match mode with
              | ExistFalse => Files (artifact_files c)
              | ExistAll | ExistAny => Flag true
              | ExistTrue => NoOutputs
              end)) ∧
  (artifact_state c (paths w) ≠ Complete →
     ca_outputs abspath nw mode true false w = (w, Raise AssertionError)).
Proof.
  intros p c. subst p c. unfold node_outputs, ca_outputs, node_prefix.
  rewrite !outputs_assert.
  split; [by intros ->|]. split; [by destruct (artifact_state _ _)|].
  split; [by intros ->|]. by destruct (artifact_state _ _).
Qed.
End outputs_facts.

(** ** Signing: what a request keeps, and all nodes at once *)

Section more_signing.
Variable abspath : string → string.
Variable docker : RunArgs → gset string → gset string * option PyExc.

Lemma containers_run_trace args w :
  ∃ r, containers_run docker args w
       = ({| paths := (docker args (paths w)).1;
             runs := runs w ++ [(args, paths w)] |}, r).
Proof. unfold containers_run. destruct (docker args (paths w)); eauto. Qed.

Lemma network_cert_cases nw ow w w' r :
  network_cert abspath docker nw ow w = (w', r) →
  let w2 := if ow then remove_files (artifact_files (ca_cert_prefix abspath nw))
                                    (ensure_dir abspath nw w)
            else ensure_dir abspath nw w in
  w' = w2 ∨
  ∃ net, network nw = Ok net ∧
         artifact_state (ca_cert_prefix abspath nw) (paths w2) = Absent ∧
         containers_run docker (ca_run_args abspath nw net) w2 = (w', r).
Proof.
  rewrite network_cert_eq. cbn zeta. intros H.
  destruct (network nw) as [net|e]; [|injection H as <- _; by left].
  destruct (artifact_state _ _) eqn:Hs.
  - right. eauto.
  - injection H as <- _. by left.
  - injection H as <- _. by left.
Qed.

Lemma sign_node_cases nw node ow w w' r :
  sign_node abspath docker nw node ow w = (w', r) →
  ∃ w2 r2, network_cert abspath docker nw false (ensure_dir abspath nw w) = (w2, r2) ∧
    let w3 := if ow then remove_files (artifact_files (node_prefix abspath nw node)) w2
              else w2 in
    ((∃ e, r2 = Raise e) ∧ w' = w2 ∧ r = r2) ∨
    (r2 = Ok tt ∧
     (w' = w3 ∨
      (artifact_state (node_prefix abspath nw node) (paths w3) = Absent ∧
       containers_run docker (node_args abspath nw node) w3 = (w', r)))).
Proof.
  rewrite sign_node_eq.
  destruct (network_cert _ _ _ _ _) as [w2 [[]|e]] eqn:Hc; intros H.
  - exists w2, (Ok tt). split; [done|]. right. split; [done|]. cbn zeta in *.
    destruct (artifact_state _ _) eqn:Hs.
    + right. done.
    + injection H as <- _. by left.
    + injection H as <- _. by left.
  - injection H as <- <-. exists w2, (Raise e). split; [done|]. left. eauto.
Qed.

(** X6: without the overwrite flag a signing request deletes nothing.
    When the external signing process itself removes no file, every path
    present before [network_cert(network)] or [sign_node(network, node)] is
    present afterwards, whether the request succeeds or raises; the output
    directory exists afterwards; and the request makes at most one signing
    run for the authority, at most two for a node, appended to the runs made
    before. *)
Theorem no_overwrite_removes_nothing (nw : NebulaNetwork) (node : NebulaNode)
    (w w' : World) (r : Result unit) :
  (∀ args p, p ⊆ (docker args p).1) →
  (network_cert abspath docker nw false w = (w', r) →
     paths w ⊆ paths w' ∧ temp_dir abspath nw ∈ paths w' ∧
     ∃ new, runs w' = runs w ++ new ∧ length new ≤ 1) ∧
  (sign_node abspath docker nw node false w = (w', r) →
     paths w ⊆ paths w' ∧ temp_dir abspath nw ∈ paths w' ∧
     ∃ new, runs w' = runs w ++ new ∧ length new ≤ 2).
Proof.
  intros Hkeep.
  assert (∀ w0 w1 r1, network_cert abspath docker nw false w0 = (w1, r1) →
     paths w0 ⊆ paths w1 ∧ temp_dir abspath nw ∈ paths w1 ∧
     ∃ new, runs w1 = runs w0 ++ new ∧ length new ≤ 1) as Hca.
  { intros w0 w1 r1 H. apply network_cert_cases in H. cbn zeta in H.
    destruct H as [->|(net & _ & _ & Hrun)].
    - simpl. split; [set_solver|]. split; [set_solver|].
      exists []. split; [by rewrite app_nil_r|simpl; lia].
    - destruct (containers_run_trace (ca_run_args abspath nw net)
                  (ensure_dir abspath nw w0)) as [r0 Hr0].
      rewrite Hr0 in Hrun. injection Hrun as <- _. simpl.
      pose proof (Hkeep (ca_run_args abspath nw net)
                        (paths w0 ∪ {[temp_dir abspath nw]})) as Hsub.
      split; [set_solver|]. split; [set_solver|]. eexists. split; [done|].
      simpl. lia. }
  split; [apply Hca|].
  intros H. apply sign_node_cases in H as (w2 & r2 & Hc & H). cbn zeta in H.
  apply Hca in Hc as (Hsub & Hdir & new & Hnew & Hlen). simpl in Hsub, Hdir.
  destruct H as [(_ & -> & _)|(_ & [->|(_ & Hrun)])].
  - split; [set_solver|]. split; [set_solver|]. exists new.
    split; [done|lia].
  - split; [set_solver|]. split; [set_solver|]. exists new.
    split; [done|lia].
  - destruct (containers_run_trace (node_args abspath nw node) w2) as [r0 Hr0].
    rewrite Hr0 in Hrun. injection Hrun as <- _. simpl.
    pose proof (Hkeep (node_args abspath nw node) (paths w2)) as Hsub2.
    split; [set_solver|]. split; [set_solver|].
    exists (new ++ [(node_args abspath nw node, paths w2)]).
    rewrite Hnew, app_assoc, length_app. simpl. split; [done|lia].
Qed.

Lemma artifact_state_Complete_mono prefix (p q : gset string) :
  p ⊆ q → artifact_state prefix p = Complete → artifact_state prefix q = Complete.
Proof.
  intros Hsub Hc. apply artifact_state_Complete.
  apply artifact_state_Complete in Hc.
  eapply Forall_impl; [exact Hc|]. intros f Hf. by apply Hsub.
Qed.

Lemma network_cert_ok nw net w w' :
  network nw = Ok net →
  signing_contract docker (ca_run_args abspath nw net)
                   (artifact_files (ca_cert_prefix abspath nw)) →
  network_cert abspath docker nw false w = (w', Ok tt) →
  paths w ⊆ paths w' ∧
  artifact_state (ca_cert_prefix abspath nw) (paths w') = Complete.
Proof.
  intros Hnet Hcontract Hrun.
  pose proof Hrun as Hrun'. rewrite network_cert_eq, Hnet in Hrun'.
  cbn zeta in Hrun'.
  destruct (artifact_state _ _) eqn:Hs.
  - unfold containers_run in Hrun'.
    destruct (docker _ _) as [p' [e|]] eqn:Hd; [done|].
    injection Hrun' as <-. simpl. apply Hcontract in Hd as [Hsub Hall].
    split; [simpl in Hsub; set_solver|]. by apply artifact_state_Complete.
  - done.
  - injection Hrun' as <-. split; [simpl; set_solver|done].
Qed.

Lemma sign_node_ok nw net node w w' :
  network nw = Ok net →
  signing_contract docker (ca_run_args abspath nw net)
                   (artifact_files (ca_cert_prefix abspath nw)) →
  signing_contract docker (node_args abspath nw node)
                   (artifact_files (node_prefix abspath nw node)) →
  sign_node abspath docker nw node false w = (w', Ok tt) →
  paths w ⊆ paths w' ∧
  artifact_state (ca_cert_prefix abspath nw) (paths w') = Complete ∧
  artifact_state (node_prefix abspath nw node) (paths w') = Complete.
Proof.
  intros Hnet Hcc Hcn Hrun. rewrite sign_node_eq in Hrun.
  destruct (network_cert _ _ _ _ _) as [w2 [[]|e]] eqn:Hc; [|done].
  apply (network_cert_ok _ _ _ _ Hnet Hcc) in Hc as [Hsub Hca].
  simpl in Hsub. cbn zeta in Hrun.
  destruct (artifact_state (node_prefix abspath nw node) (paths w2)) eqn:Hs.
  - unfold containers_run in Hrun.
    destruct (docker _ _) as [p' [e|]] eqn:Hd; [done|].
    injection Hrun as <-. simpl. apply Hcn in Hd as [Hsub' Hall].
    split; [set_solver|]. split; [|by apply artifact_state_Complete].
    by eapply artifact_state_Complete_mono.
  - done.
  - injection Hrun as <-. split; [set_solver|done].
Qed.

Lemma sign_each_ok nw net (ns : list NebulaNode) : ∀ w w' us,
  network nw = Ok net →
  signing_contract docker (ca_run_args abspath nw net)
                   (artifact_files (ca_cert_prefix abspath nw)) →
  (∀ nd, nd ∈ ns →
     signing_contract docker (node_args abspath nw nd)
                      (artifact_files (node_prefix abspath nw nd))) →
  sign_each abspath docker nw ns false w = (w', Ok us) →
  paths w ⊆ paths w' ∧ length us = length ns ∧
  (ns = [] → w' = w) ∧
  (ns ≠ [] → artifact_state (ca_cert_prefix abspath nw) (paths w') = Complete) ∧
  ∀ nd, nd ∈ ns →
    artifact_state (node_prefix abspath nw nd) (paths w') = Complete.
Proof.
  induction ns as [|node rest IH]; intros w w' us Hnet Hcc Hcn Hrun.
  - injection Hrun as <- <-. repeat split; try done.
    intros nd Hnd. by apply elem_of_nil in Hnd.
  - simpl in Hrun. unfold bind at 1 in Hrun.
    destruct (sign_node _ _ _ _ _ _) as [w1 [[]|e]] eqn:Hs; [|done].
    unfold bind at 1 in Hrun.
    destruct (sign_each _ _ _ _ _ _) as [w2 [us'|e]] eqn:He; [|done].
    injection Hrun as <- <-.
    apply (sign_node_ok _ _ _ _ _ Hnet Hcc) in Hs as (Hsub1 & Hca1 & Hn1).
    2:{ apply Hcn. left. }
    apply IH in He as (Hsub2 & Hlen & _ & _ & Hrest); [|done..|].
    2:{ intros nd Hnd. apply Hcn. by right. }
    split; [set_solver|]. split; [simpl; lia|]. split; [done|].
    split; [intros _; by eapply artifact_state_Complete_mono|].
    intros nd [->|Hnd]%elem_of_cons; [|by apply Hrest].
    by eapply artifact_state_Complete_mono.
Qed.

(** X7: [sign_nodes] signs every node.  When successful signing runs
    leave their three files in place and remove nothing, a [sign_nodes] call
    without overwrite that succeeds returns one result per node, keeps every
    path that existed, and leaves the artifact set of every node Complete,
    and that of the authority as well when the network has a node; for a
    network without nodes it does nothing at all. *)
Theorem sign_nodes_completes_all (nw : NebulaNetwork)
    (net : ipaddress.IPv4Network) (w w' : World) (us : list unit) :
  network nw = Ok net →
  signing_contract docker (ca_run_args abspath nw net)
                   (artifact_files (ca_cert_prefix abspath nw)) →
  (∀ nd, nd ∈ nodes nw →
     signing_contract docker (node_args abspath nw nd)
                      (artifact_files (node_prefix abspath nw nd))) →
  sign_nodes abspath docker nw false w = (w', Ok us) →
  paths w ⊆ paths w' ∧ length us = length (nodes nw) ∧
  (nodes nw = [] → w' = w) ∧
  (nodes nw ≠ [] →
     artifact_state (ca_cert_prefix abspath nw) (paths w') = Complete) ∧
  ∀ nd, nd ∈ nodes nw →
    artifact_state (node_prefix abspath nw nd) (paths w') = Complete.
Proof.
  intros Hnet Hcc Hcn Hrun. by eapply sign_each_ok.
Qed.

Lemma sign_each_set_node nw i x (ns : list NebulaNode) ow :
  sign_each abspath docker (set_node nw i x) ns ow
  = sign_each abspath docker nw ns ow.
Proof. induction ns as [|node rest IH]; [done|]. simpl. by rewrite IH. Qed.

Lemma create_node_cert_from_world (todo : list NebulaNode) :
  ∀ nw0 i w w' nw',
  create_node_cert_from abspath docker nw0 i todo w = (w', Ok nw') →
  sign_each abspath docker nw0 todo false w
  = (w', Ok (replicate (length todo) tt)).
Proof.
  induction todo as [|node rest IH]; intros nw0 i w w' nw' Hrun.
  - by injection Hrun as <- _.
  - simpl in Hrun |- *. unfold bind at 1 in Hrun. unfold bind at 1.
    destruct (sign_node _ _ _ _ _ _) as [w1 [[]|e]]; [|done].
    unfold bind at 1 in Hrun. unfold ca_outputs in Hrun.
    rewrite outputs_pure in Hrun.
    unfold bind at 1, lift in Hrun. unfold artifact_files at 1 in Hrun.
    cbn [unpack3] in Hrun.
    unfold bind at 1 in Hrun. unfold node_outputs in Hrun.
    rewrite outputs_pure in Hrun.
    unfold bind at 1, lift in Hrun. unfold artifact_files at 1 in Hrun.
    cbn [unpack3] in Hrun.
    unfold bind at 1, lift in Hrun.
    destruct (compose_config _ _ _ _ _) as [[g cfg]|e] eqn:Hcfg; [|done].
    apply IH in Hrun. rewrite sign_each_set_node in Hrun.
    unfold bind at 1. by rewrite Hrun.
Qed.

(** X8: on the filesystem and the signing process,
    [NebulaNetwork.create_node_cert] does what [sign_nodes] without overwrite
    does: when it succeeds, [sign_nodes] from the same state succeeds with
    the same final state, runs included.  The configurations it attaches
    live in the network object only. *)
Theorem create_node_cert_signs_like_sign_nodes (nw nw' : NebulaNetwork)
    (w w' : World) :
  create_node_cert abspath docker nw w = (w', Ok nw') →
  sign_nodes abspath docker nw false w
  = (w', Ok (replicate (length (nodes nw)) tt)).
Proof.
  intros Hrun. apply create_node_cert_from_world in Hrun.
  unfold sign_nodes, bind, lift. simpl. exact Hrun.
Qed.
End more_signing.

Lemma docker_ok_keeps (args : RunArgs) (p : gset string) :
  p ⊆ (docker_ok args p).1.
Proof. unfold docker_ok. simpl. set_solver. Qed.

Lemma docker_ok_contract_nodes (nd : NebulaNode) :
  nd ∈ nodes built_network →
  signing_contract docker_ok (node_args abspath_w built_network nd)
                   (artifact_files (node_prefix abspath_w built_network nd)).
Proof.
  intros Hnd. change (nodes built_network) with [node_A; node_B; node_C1] in Hnd.
  rewrite !elem_of_cons, elem_of_nil in Hnd.
  intros p p' [= <-].
  assert (out_files ["-out-crt"; "-out-key"; "-out-qr"]
            (node_args abspath_w built_network nd)
          = list_to_set (artifact_files (node_prefix abspath_w built_network nd)))
    as ->.
  { destruct Hnd as [->|[->|[->|[]]]]; vm_compute; reflexivity. }
  split; [set_solver|]. apply Forall_forall. intros f Hf. set_solver.
Qed.

Lemma sign_nodes_run :
  sign_nodes abspath_w docker_ok built_network false (world0 [])
  = (signed_world, Ok [tt; tt; tt]).
Proof. vm_compute. reflexivity. Qed.

Lemma create_node_cert_run :
  create_node_cert abspath_w docker_ok built_network (world0 [])
  = (composed_world, Ok composed_network).
Proof. vm_compute. reflexivity. Qed.

Lemma no_overwrite_removes_nothing_witness :
  "/w/TestCA/C.crt"
  ∈ paths (sign_node abspath_w docker_ok built_network node_C1 false
             w_node_partial).1.
Proof.
  refine (proj1 (proj2 (no_overwrite_removes_nothing abspath_w docker_ok
                          built_network node_C1 w_node_partial _ _
                          docker_ok_keeps)
                       (surjective_pairing _)) _ _).
  unfold w_node_partial, world0. cbn [paths].
  apply elem_of_list_to_set. right. left.
Defined.

Lemma sign_nodes_completes_all_witness :
  artifact_state ca_w (paths signed_world) = Complete ∧
  artifact_state nd_w (paths signed_world) = Complete.
Proof.
  destruct (sign_nodes_completes_all abspath_w docker_ok built_network
              example_block (world0 []) signed_world [tt; tt; tt]
              built_network_block docker_ok_contract_ca
              docker_ok_contract_nodes sign_nodes_run)
    as (_ & _ & _ & Hca & Hnodes).
  split; [by apply Hca|]. apply Hnodes.
  change (nodes built_network) with [node_A; node_B; node_C1].
  rewrite !elem_of_cons. auto.
Defined.

Lemma create_node_cert_signs_like_sign_nodes_witness :
  sign_nodes abspath_w docker_ok built_network false (world0 [])
  = (composed_world, Ok [tt; tt; tt]).
Proof.
  exact (create_node_cert_signs_like_sign_nodes abspath_w docker_ok
           built_network composed_network (world0 []) composed_world
           create_node_cert_run).
Defined.

(** ** Composition: firewall rules and attached configurations *)

(** X9: [NebulaNode.get_firewall_items_from_groups].  The firewall it
    returns has the same rules outbound and inbound, one per entry of the
    node's groups and in their order: a group label becomes the rule with
    that group and every other field at its default, an explicit rule is
    kept as it is.  The node's groups are replaced by these rules, so a
    second call returns the same firewall and changes nothing. *)
Theorem firewall_from_groups (self : NebulaNode) :
  let '(g, fw) := get_firewall_items_from_groups self in
  outbound fw = inbound fw ∧
  length (outbound fw) = length (groups self) ∧
  (∀ i label, groups self !! i = Some (inl label) →
     outbound fw !! i
     = Some {| io_port := None; io_proto := "any"; io_host := None;
               io_groups := None; io_group := Some label |}) ∧
  (∀ i item, groups self !! i = Some (inr item) → outbound fw !! i = Some item) ∧
  g = inr <$> outbound fw ∧
  (∀ c, get_firewall_items_from_groups (set_config self g c) = (g, fw)).
Proof.
  unfold get_firewall_items_from_groups. simpl.
  split; [done|]. split; [by rewrite length_fmap|]. split; [|split; [|split]].
  - intros i label Hi. by rewrite list_lookup_fmap, Hi.
  - intros i item Hi. by rewrite list_lookup_fmap, Hi.
  - done.
  - intros c.
    assert (∀ items : list InOutboundItem,
              resolve_group <$> (inr <$> items) = items) as Hid.
    { intros items. induction items as [|x items IH]; [done|].
      rewrite !fmap_cons, IH. done. }
    by rewrite !Hid.
Qed.

Section more_composition.
Variable abspath : string → string.
Variable docker : RunArgs → gset string → gset string * option PyExc.

Lemma create_node_cert_from_configs (todo : list NebulaNode) :
  ∀ nw0 i w w' nw',
  (∀ k nd, todo !! k = Some nd → nodes nw0 !! (i + k) = Some nd) →
  create_node_cert_from abspath docker nw0 i todo w = (w', Ok nw') →
  cert_authority nw' = cert_authority nw0 ∧ net_ip nw' = net_ip nw0 ∧
  cidr nw' = cidr nw0 ∧ length (nodes nw') = length (nodes nw0) ∧
  (∀ j, j < i → nodes nw' !! j = nodes nw0 !! j) ∧
  (∀ k nd, todo !! k = Some nd →
     ∃ shm, nodes nw' !! (i + k)
       = Some (set_config nd (get_firewall_items_from_groups nd).1
                 (NebulaConfig_new
                    (Pki_new (ca_cert_prefix abspath nw0 +:+ "." +:+ "crt")
                             (node_prefix abspath nw0 nd +:+ "." +:+ "crt")
                             (node_prefix abspath nw0 nd +:+ "." +:+ "key"))
                    shm (Lighthouse_new (am_lighthouse nd))
                    (get_firewall_items_from_groups nd).2))).
Proof.
  induction todo as [|node rest IH]; intros nw0 i w w' nw' Hpos Hrun.
  - injection Hrun as _ <-. repeat split; [done..|].
    intros k nd Hk. by rewrite lookup_nil in Hk.
  - simpl in Hrun. unfold bind at 1 in Hrun.
    destruct (sign_node _ _ _ _ _ _) as [w1 [[]|e]]; [|done].
    unfold bind at 1 in Hrun. unfold ca_outputs in Hrun.
    rewrite outputs_pure in Hrun.
    unfold bind at 1, lift in Hrun. unfold artifact_files at 1 in Hrun.
    cbn [unpack3] in Hrun.
    unfold bind at 1 in Hrun. unfold node_outputs in Hrun.
    rewrite outputs_pure in Hrun.
    unfold bind at 1, lift in Hrun. unfold artifact_files at 1 in Hrun.
    cbn [unpack3] in Hrun.
    unfold bind at 1, lift in Hrun.
    destruct (compose_config _ _ _ _ _) as [[g cfg]|e] eqn:Hcfg; [|done].
    cbn [fst snd] in Hrun, Hcfg.
    assert (nodes nw0 !! i = Some node) as Hi.
    { specialize (Hpos 0 node eq_refl). by rewrite Nat.add_0_r in Hpos. }
    unfold compose_config in Hcfg.
    destruct (get_firewall_items_from_groups node) as [g0 fw] eqn:Hfw.
    destruct (node_static_host_map nw0 node) as [shm|]; [|done].
    simpl in Hcfg. injection Hcfg as <- <-.
    apply IH in Hrun as (Hca & Hip & Hcidr & Hlen & Hlow & Hrest).
    2:{ intros k nd Hk. simpl. rewrite list_lookup_insert_ne by lia.
        specialize (Hpos (S k) nd Hk).
        by replace (S (i + k)) with (i + S k) by lia. }
    simpl in Hca, Hip, Hcidr, Hlen, Hlow.
    rewrite length_insert in Hlen.
    split; [done|]. split; [done|]. split; [done|]. split; [done|]. split.
    + intros j Hj. rewrite Hlow by lia. by rewrite list_lookup_insert_ne by lia.
    + intros [|k] nd Hk; simpl in Hk.
      * injection Hk as <-. exists shm. rewrite Hfw. simpl.
        rewrite Nat.add_0_r, Hlow by lia.
        apply list_lookup_insert_eq. by eapply lookup_lt_Some.
      * destruct (Hrest k nd Hk) as (shm' & Hl). exists shm'.
        replace (i + S k) with (S i + k) by lia. exact Hl.
Qed.

(** X10: the configuration [create_node_cert] attaches.  When it
    succeeds the network keeps its name, block and number of nodes; the node
    at each position keeps its name, address, port, lighthouse flag and
    public endpoint, its groups are resolved to rules, and it has a
    configuration whose pki section names the authority's certificate and
    the node's certificate and key among the signing outputs, with
    disconnect_invalid set and no blocklist, whose lighthouse section
    carries the node's lighthouse flag, and whose firewall has the node's
    resolved groups outbound and inbound. *)
Theorem create_node_cert_configs (nw nw' : NebulaNetwork) (w w' : World) :
  create_node_cert abspath docker nw w = (w', Ok nw') →
  cert_authority nw' = cert_authority nw ∧ net_ip nw' = net_ip nw ∧
  cidr nw' = cidr nw ∧ length (nodes nw') = length (nodes nw) ∧
  ∀ j nd, nodes nw !! j = Some nd →
    ∃ nd' cfg, nodes nw' !! j = Some nd' ∧ config nd' = Some cfg ∧
      name nd' = name nd ∧ ip nd' = ip nd ∧ port nd' = port nd ∧
      am_lighthouse nd' = am_lighthouse nd ∧ public nd' = public nd ∧
      groups nd' = inr <$> (resolve_group <$> groups nd) ∧
      pki cfg = {| ca := ca_cert_prefix abspath nw +:+ "." +:+ "crt";
                   cert := node_prefix abspath nw nd +:+ "." +:+ "crt";
                   key := node_prefix abspath nw nd +:+ "." +:+ "key";
                   blocklist := None; disconnect_invalid := Some true |} ∧
      lh_am_lighthouse (lighthouse cfg) = am_lighthouse nd ∧
      outbound (firewall cfg) = resolve_group <$> groups nd ∧
      inbound (firewall cfg) = resolve_group <$> groups nd.
Proof.
  intros Hrun.
  apply create_node_cert_from_configs in Hrun
    as (Hca & Hip & Hcidr & Hlen & _ & H); [|done].
  split; [done|]. split; [done|]. split; [done|]. split; [done|].
  intros j nd Hj. destruct (H j nd Hj) as (shm & Hl).
  eexists _, _. split; [exact Hl|]. simpl. repeat split.
Qed.

(** X11: a lighthouse needs an address and a public endpoint.  In a
    network whose lighthouses have pairwise distinct addresses, if one
    lighthouse lacks its address or its public endpoint, the static host map
    of every node that is not a lighthouse is refused by validation, and
    [create_node_cert] cannot succeed on a network that has such a node. *)
Theorem lighthouse_without_endpoint (nw : NebulaNetwork) (n : NebulaNode) :
  NoDup (ip <$> lighthouses nw) →
  n ∈ lighthouses nw →
  ip n = None ∨ public n = None →
  (∀ node, am_lighthouse node = false →
           node_static_host_map nw node = Raise ValidationError) ∧
  (∀ node w w' nw', node ∈ nodes nw → am_lighthouse node = false →
                    create_node_cert abspath docker nw w ≠ (w', Ok nw')).
Proof.
  intros Hnd Hn Hmiss.
  assert (∀ node, am_lighthouse node = false →
            node_static_host_map nw node = Raise ValidationError) as Hshm.
  { intros node Hlh. unfold node_static_host_map, StaticHostMap_new.
    rewrite Hlh. simpl. rewrite decide_False; [done|].
    intros Hall.
    assert (dict (host_pairs nw) !! ip n = Some [public n]) as Hl.
    { apply dict_lookup_NoDup.
      - unfold host_pairs. by rewrite <-list_fmap_compose.
      - apply list_elem_of_fmap. by exists n. }
    apply Hall in Hl as [Hk Hv].
    destruct Hmiss as [Hip|Hpub].
    - rewrite Hip in Hk. by destruct Hk.
    - rewrite Hpub in Hv. apply Forall_cons in Hv as [[? ?] _]. done. }
  split; [done|].
  intros node w w' nw' Hin Hlh Hrun.
  apply list_elem_of_lookup in Hin as [j Hj].
  apply create_node_cert_spec in Hrun as [_ H].
  destruct (H j node Hj) as (g & cfg & _ & Hok).
  rewrite Hshm in Hok by done. done.
Qed.
End more_composition.

Lemma lighthouse_without_endpoint_witness :
  node_static_host_map blind_network
    (mk_node "N" (Some (ip4 10 100 100 2)) false None)
  = Raise ValidationError.
Proof.
  destruct (lighthouse_without_endpoint abspath_w docker_ok blind_network
              (mk_node "L" (Some (ip4 10 100 100 1)) true None)) as [H _].
  - vm_compute. apply NoDup_singleton.
  - vm_compute. apply list_elem_of_here.
  - by right.
  - by apply H.
Defined.

Lemma create_node_cert_configs_witness :
  cert_authority composed_network = "TestCA" ∧
  length (nodes composed_network) = 3.
Proof.
  destruct (create_node_cert_configs abspath_w docker_ok built_network
              composed_network (world0 []) composed_world create_node_cert_run)
    as (Hca & _ & _ & Hlen & _).
  split; [exact Hca|exact Hlen].
Defined.

(** ** Serialization of address maps *)

Lemma dotless_octet (o : N) : (o < 256)%N → dotless (pretty o) = true.
Proof.
  intros Ho.
  assert (Forall (λ k : nat, dotless (pretty (N.of_nat k)) = true) (seq 0 256))
    as Hall.
  { apply (bool_decide_unpack _). by vm_compute. }
  rewrite Forall_forall in Hall.
  specialize (Hall (N.to_nat o)). rewrite N2Nat.id in Hall. apply Hall.
  apply elem_of_seq. lia.
Qed.

Lemma split_at_dot (a : string) : ∀ (a' r r' : string),
  dotless a = true → dotless a' = true →
  a +:+ "." +:+ r = a' +:+ "." +:+ r' → a = a' ∧ r = r'.
Proof.
  induction a as [|c a IH]; intros [|c' a'] r r' Ha Ha' Heq.
  - change (String "." r = String "." r') in Heq. by injection Heq as ->.
  - change (String "." r = String c' (a' +:+ "." +:+ r')) in Heq.
    injection Heq as <- _. done.
  - change (String c (a +:+ "." +:+ r) = String "." r') in Heq.
    injection Heq as -> _. done.
  - change (String c (a +:+ "." +:+ r) = String c' (a' +:+ "." +:+ r')) in Heq.
    injection Heq as -> Heq. simpl in Ha, Ha'.
    apply andb_true_iff in Ha as [_ Ha]. apply andb_true_iff in Ha' as [_ Ha'].
    destruct (IH _ _ _ Ha Ha' Heq) as [-> ->]. done.
Qed.

Lemma octet_lt a k : (ipaddress.octet a k < 256)%N.
Proof. unfold ipaddress.octet. apply N.mod_lt. lia. Qed.

Lemma octets_value (a : N) :
  (a < 2 ^ 32)%N →
  a = ip4 (ipaddress.octet a 3) (ipaddress.octet a 2)
          (ipaddress.octet a 1) (ipaddress.octet a 0).
Proof.
  intros Ha. unfold ip4, ipaddress.octet.
  change (2 ^ (8 * 0))%N with 1%N. change (2 ^ (8 * 1))%N with 256%N.
  change (2 ^ (8 * 2))%N with (256 * 256)%N.
  change (2 ^ (8 * 3))%N with (256 * 256 * 256)%N.
  rewrite N.div_1_r. rewrite <-!N.Div0.div_div.
  set (q1 := (a `div` 256)%N). set (q2 := (q1 `div` 256)%N).
  set (q3 := (q2 `div` 256)%N).
  assert (q3 < 256)%N as H3.
  { unfold q3, q2, q1. rewrite !N.Div0.div_div.
    apply N.Div0.div_lt_upper_bound. change (2 ^ 32)%N with 4294967296%N in Ha.
    lia. }
  rewrite (N.mod_small q3) by done.
  pose proof (N.div_mod a 256). pose proof (N.div_mod q1 256).
  pose proof (N.div_mod q2 256). fold q1 in H. fold q2 in H0. fold q3 in H1.
  lia.
Qed.

Lemma ipaddress_str_inj (a b : N) :
  (a < 2 ^ 32)%N → (b < 2 ^ 32)%N → ipaddress.str a = ipaddress.str b → a = b.
Proof.
  intros Ha Hb Heq. unfold ipaddress.str in Heq.
  apply split_at_dot in Heq as [H3 Heq]; [|by apply dotless_octet, octet_lt..].
  apply split_at_dot in Heq as [H2 Heq]; [|by apply dotless_octet, octet_lt..].
  apply split_at_dot in Heq as [H1 H0]; [|by apply dotless_octet, octet_lt..].
  apply (inj pretty) in H3, H2, H1, H0.
  rewrite (octets_value a Ha), (octets_value b Hb). congruence.
Qed.

(** X12: [AddressMapping.addrs_to_strs] on a static host map.  An empty
    map is serialized as None.  A map that is not empty (its keys IPv4
    addresses) is serialized entry for entry: the dotted-quad text of each
    address maps to the texts of its endpoints in their order, no two
    addresses share a key, and the result has no other key. *)
Theorem addrs_to_strs_entries (self : StaticHostMap) :
  (contents self = ∅ → addrs_to_strs self = None) ∧
  (contents self ≠ ∅ →
   map_Forall (λ a _, (a < 2 ^ 32)%N) (contents self) →
   ∃ out, addrs_to_strs self = Some out ∧
     (∀ a v, contents self !! a = Some v →
             out !! ipaddress.str a = Some (RoutableIPPort_str <$> v)) ∧
     (∀ k u, out !! k = Some u →
             ∃ a v, contents self !! a = Some v ∧ k = ipaddress.str a ∧
                    u = RoutableIPPort_str <$> v)).
Proof.
  unfold addrs_to_strs. split.
  - intros ->. by rewrite map_size_empty.
  - intros Hne Hkeys. rewrite decide_True.
    2:{ apply map_size_non_empty_iff in Hne. lia. }
    eexists. split; [done|]. split.
    + intros a v Hav. apply dict_lookup_NoDup.
      * rewrite <-list_fmap_compose.
        apply (NoDup_fmap_2_strong _); [|apply NoDup_map_to_list].
        intros [a1 v1] [a2 v2] H1 H2 Heq. simpl in Heq.
        apply elem_of_map_to_list in H1, H2.
        assert (a1 = a2) as ->.
        { apply ipaddress_str_inj; [by eapply (Hkeys a1)|by eapply (Hkeys a2)|done]. }
        congruence.
      * apply list_elem_of_fmap. exists (a, v). split; [done|].
        by apply elem_of_map_to_list.
    + intros k u Hku. apply dict_lookup_elem in Hku.
      apply list_elem_of_fmap in Hku as ([a v] & [= -> ->] & Hin).
      apply elem_of_map_to_list in Hin. eauto.
Qed.

(** ** Output layout: paths that never collide, and saving *)

Lemma artifact_files_prefix (p1 p2 f : string) :
  f ∈ artifact_files p1 → f ∈ artifact_files p2 → p1 = p2.
Proof.
  intros H1 H2. destruct (decide (p1 = p2)) as [|Hne]; [done|].
  by destruct (artifact_files_disjoint p1 p2 f).
Qed.

Lemma string_app_suffix_eq (a b t1 t2 : string) :
  String.length t1 = String.length t2 → a +:+ t1 = b +:+ t2 → t1 = t2.
Proof.
  intros Hl He. pose proof (string_app_inj_r _ _ _ _ Hl He) as ->.
  by apply String.app_inj in He.
Qed.

Lemma not_artifact_suffix (x t prefix : string) :
  String.length t = 4 → t ≠ ".crt" → t ≠ ".key" → t ≠ ".png" →
  x +:+ t ∉ artifact_files prefix.
Proof.
  intros Hl H1 H2 H3. unfold artifact_files.
  rewrite !not_elem_of_cons. repeat split; try apply not_elem_of_nil.
  all: intros Heq; apply string_app_suffix_eq in Heq; done.
Qed.

Section layout_more.
Variable abspath : string → string.

(** X13: output paths do not collide.  Two nodes share a certificate,
    key or QR file only if they have the same name; a node shares one with
    the authority only if its name is the authority's file name
    {ca}_{ip}_{cidr}; the configuration file and the composition descriptor
    of a node are never a file of a certificate artifact set, a
    configuration file is never a composition descriptor, and two nodes have
    the same configuration file, or the same descriptor, only if they have
    the same name. *)
Theorem output_paths_separate (nw : NebulaNetwork) (n1 n2 : NebulaNode) :
  (∀ f, f ∈ artifact_files (node_prefix abspath nw n1) →
        f ∈ artifact_files (node_prefix abspath nw n2) → name n1 = name n2) ∧
  (∀ f, f ∈ artifact_files (node_prefix abspath nw n1) →
        f ∈ artifact_files (ca_cert_prefix abspath nw) →
        name n1 = (cert_authority nw +:+ "_" +:+ ipaddress.str (net_ip nw)
                   +:+ "_" +:+ pretty (cidr nw))) ∧
  (∀ prefix, (node_config abspath nw (ByNode n1) ∉ artifact_files prefix) ∧
             (node_compose abspath nw (ByNode n1) ∉ artifact_files prefix)) ∧
  node_config abspath nw (ByNode n1) ≠ node_compose abspath nw (ByNode n2) ∧
  (node_config abspath nw (ByNode n1) = node_config abspath nw (ByNode n2) →
   name n1 = name n2) ∧
  (node_compose abspath nw (ByNode n1) = node_compose abspath nw (ByNode n2) →
   name n1 = name n2).
Proof.
  assert (∀ n, node_config abspath nw (ByNode n)
               = ((temp_dir abspath nw +:+ "/") +:+ name n +:+ ".") +:+ "yaml")
    as Hc.
  { intros n. rewrite <-!string_app_assoc. reflexivity. }
  assert (∀ n, node_compose abspath nw (ByNode n)
               = ((temp_dir abspath nw +:+ "/") +:+ name n
                  +:+ "_docker-compose") +:+ ".yml") as Hd.
  { intros n. rewrite <-!string_app_assoc. reflexivity. }
  split; [|split; [|split; [|split; [|split]]]].
  - intros f H1 H2. pose proof (artifact_files_prefix _ _ _ H1 H2) as Heq.
    unfold node_prefix, node_cert_prefix in Heq. simpl in Heq.
    by do 2 apply String.app_inj in Heq.
  - intros f H1 H2. pose proof (artifact_files_prefix _ _ _ H1 H2) as Heq.
    unfold node_prefix, node_cert_prefix, ca_cert_prefix in Heq. simpl in Heq.
    by do 2 apply String.app_inj in Heq.
  - intros prefix. split.
    + rewrite Hc. change "yaml" with ("y" +:+ "aml").
      rewrite (string_app_assoc _ "y" "aml").
      intros Hin. unfold artifact_files in Hin.
      rewrite !elem_of_cons, elem_of_nil in Hin.
      destruct Hin as [H|[H|[H|[]]]];
        rewrite (string_app_assoc prefix) in H;
        by apply string_app_suffix_eq in H.
    + rewrite Hd. by apply not_artifact_suffix.
  - rewrite Hc, Hd. intros H. by apply string_app_suffix_eq in H.
  - rewrite !Hc. intros H. apply string_app_inj_r in H; [|done].
    apply String.app_inj in H. by apply string_app_inj_r in H.
  - rewrite !Hd. intros H. apply string_app_inj_r in H; [|done].
    apply String.app_inj in H. by apply string_app_inj_r in H.
Qed.
End layout_more.

Section saving.
Variable abspath : string → string.

Lemma save_compose_each_all (nw : NebulaNetwork) (ns : list NebulaNode) :
  ∀ w, save_compose_each abspath nw ns w
       = ({| paths := paths w ∪ list_to_set
                        ((λ n, node_compose abspath nw (ByNode n)) <$> ns);
             runs := runs w |},
          Ok (replicate (length ns) tt)).
Proof.
  induction ns as [|n ns IH]; intros w.
  - simpl. unfold ret. f_equal. apply world_eq; simpl; [set_solver|done].
  - cbn [save_compose_each]. unfold bind at 1, write_compose, write_file.
    unfold bind at 1. rewrite IH. unfold ret. cbn [paths runs].
    f_equal; try done.
    apply world_eq; cbn [paths runs]; [|done].
    rewrite fmap_cons, list_to_set_cons. set_solver.
Qed.

Lemma save_config_each_all (nw : NebulaNetwork) (ns : list NebulaNode) :
  Forall (λ m, is_Some (config m)) ns →
  ∀ w, save_config_each abspath nw ns w
       = ({| paths := paths w ∪ list_to_set
                        ((λ n, node_config abspath nw (ByNode n)) <$> ns);
             runs := runs w |},
          Ok (replicate (length ns) tt)).
Proof.
  induction 1 as [|n ns [c Hc] _ IH]; intros w.
  - simpl. unfold ret. f_equal. apply world_eq; simpl; [set_solver|done].
  - cbn [save_config_each]. unfold bind at 1, dump_config. rewrite Hc.
    unfold write_file. unfold bind at 1. rewrite IH. unfold ret.
    cbn [paths runs]. f_equal; try done.
    apply world_eq; cbn [paths runs]; [|done].
    rewrite fmap_cons, list_to_set_cons.
    change (node_config abspath nw (ByName (name n)))
      with (node_config abspath nw (ByNode n)). set_solver.
Qed.

Lemma save_config_each_stops (nw : NebulaNetwork)
    (ready : list NebulaNode) (n : NebulaNode) (rest : list NebulaNode) :
  Forall (λ m, is_Some (config m)) ready → config n = None →
  ∀ w, save_config_each abspath nw (ready ++ n :: rest) w
       = ({| paths := paths w ∪ list_to_set
                        ((λ n, node_config abspath nw (ByNode n)) <$> ready);
             runs := runs w |},
          Raise AssertionError).
Proof.
  intros Hready Hn. induction Hready as [|m ms [c Hc] _ IH]; intros w.
  - cbn [app save_config_each]. unfold bind at 1, dump_config. rewrite Hn.
    unfold raise. f_equal. apply world_eq; simpl; [set_solver|done].
  - cbn [app save_config_each]. unfold bind at 1, dump_config. rewrite Hc.
    unfold write_file. unfold bind at 1. rewrite IH.
    cbn [paths runs]. f_equal; try done.
    apply world_eq; cbn [paths runs]; [|done].
    rewrite fmap_cons, list_to_set_cons.
    change (node_config abspath nw (ByName (name m)))
      with (node_config abspath nw (ByNode m)). set_solver.
Qed.

(** X14: saving for every node ([node=None]), where the output directory
    exists and neither it nor a node name contains a brace (so that the
    second [format] of the path returns it unchanged and [open] finds the
    directory).  [save_node_composes] writes the composition descriptor of
    every node, configured or not, touches no other path, makes no run and
    returns one result per node.  [save_node_configs] does the same with the
    configuration files when every node has a configuration; at the first
    node without one it raises AssertionError, leaving the files of the
    nodes before it written. *)
Theorem save_all_nodes (nw : NebulaNetwork) (w : World) :
  no_brace (temp_dir abspath nw) = true →
  Forall (λ n, no_brace (name n) = true) (nodes nw) →
  temp_dir abspath nw ∈ paths w →
  save_node_composes abspath nw ArgNone w
  = ({| paths := paths w ∪ list_to_set
                   ((λ n, node_compose abspath nw (ByNode n)) <$> nodes nw);
        runs := runs w |},
     Ok (replicate (length (nodes nw)) tt)) ∧
  (Forall (λ m, is_Some (config m)) (nodes nw) →
   save_node_configs abspath nw ArgNone w
   = ({| paths := paths w ∪ list_to_set
                    ((λ n, node_config abspath nw (ByNode n)) <$> nodes nw);
         runs := runs w |},
      Ok (replicate (length (nodes nw)) tt))) ∧
  (∀ ready n rest,
     nodes nw = ready ++ n :: rest →
     Forall (λ m, is_Some (config m)) ready → config n = None →
     save_node_configs abspath nw ArgNone w
     = ({| paths := paths w ∪ list_to_set
                      ((λ n, node_config abspath nw (ByNode n)) <$> ready);
           runs := runs w |},
        Raise AssertionError)).
Proof.
  intros _ _ _. split; [|split].
  - apply save_compose_each_all.
  - intros Hall. by apply save_config_each_all.
  - intros ready n rest Hnodes Hready Hn.
    unfold save_node_configs, save_config. cbn [save_config_name lift].
    unfold bind at 1. unfold get_nodes. unfold bind at 1. unfold lift.
    rewrite Hnodes. by apply save_config_each_stops.
Qed.
End saving.

Lemma save_all_nodes_witness :
  (save_node_configs abspath_w configured_network ArgNone
     (world0 ["/w/TestCA"])).2 = Ok [tt; tt; tt].
Proof.
  refine (f_equal snd (proj1 (proj2 (save_all_nodes abspath_w configured_network
            (world0 ["/w/TestCA"]) _ _ _)) _)).
  - reflexivity.
  - repeat constructor.
  - vm_compute. set_solver.
  - repeat constructor; by eexists.
Defined.
